(** * gosseract: the Client of client.go, embedded and verified

    client.go is a thin Go layer in front of the Tesseract engine, which it
    reaches through cgo.  The Go side (the fields of [Client], the setters,
    the order of the engine calls, the error values) is translated here
    function by function.  The engine itself (tessbridge.h) and the file
    system behind [os.Stat] are outside client.go: they are parameters of
    the development. *)

From Stdlib Require Import ZArith String Ascii List.
From stdpp Require Import gmap strings list fin_maps.

Local Open Scope Z_scope.
Local Open Scope string_scope.

(** ** Strings across the cgo boundary *)

(** The NUL byte, which ends a C string. *)
Definition NUL : ascii := "000"%char.

(** No byte of [s] is NUL. *)
Fixpoint NUL_free (s : string) : bool :=
  match s with
  | EmptyString => true
  | String b rest => negb (Ascii.eqb b NUL) && NUL_free rest
  end.

(** [C.CString(s)] as the C side reads it: [C.CString] copies all the bytes
    of [s] and appends a NUL, and a callee that takes a [char*] reads up to
    the first NUL, so what it receives is the bytes of [s] before its first
    NUL byte. *)
Fixpoint C_CString (s : string) : string :=
  match s with
  | EmptyString => EmptyString
  | String b rest => if Ascii.eqb b NUL then EmptyString else String b (C_CString rest)
  end.

(** ** The Go standard library functions client.go calls *)

Module strings.

(** [strings.Join(elems, sep)]: the elements in order, [sep] between each
    two neighbours; the empty string for no element. *)
Fixpoint Join (elems : list string) (sep : string) : string :=
  match elems with
  | [] => ""
  | [e] => e
  | e :: rest => e +:+ sep +:+ Join rest sep
  end.

(** Is the byte [b] one of the bytes of [cutset]? *)
Fixpoint in_cutset (b : ascii) (cutset : string) : bool :=
  match cutset with
  | EmptyString => false
  | String c rest => if Ascii.eqb b c then true else in_cutset b rest
  end.

(** [strings.TrimLeft(s, cutset)] for a cutset of ASCII bytes. *)
Fixpoint TrimLeft (s cutset : string) : string :=
  match s with
  | EmptyString => EmptyString
  | String b rest => if in_cutset b cutset then TrimLeft rest cutset else s
  end.

(** [strings.TrimRight(s, cutset)] for a cutset of ASCII bytes. *)
Fixpoint TrimRight (s cutset : string) : string :=
  match s with
  | EmptyString => EmptyString
  | String b rest =>
      match TrimRight rest cutset with
      | EmptyString => if in_cutset b cutset then EmptyString else String b EmptyString
      | kept => String b kept
      end
  end.

(** [strings.Trim(s, cutset)]: all leading and trailing bytes of [cutset]
    removed.  For a one-byte ASCII cutset Go trims the right end first. *)
Definition Trim (s cutset : string) : string :=
  TrimLeft (TrimRight s cutset) cutset.

End strings.

Module os.

(** What client.go reads of an [os.FileInfo]. *)
Record FileInfo := { IsDir : bool }.

(** The file system at the moment of a call: what is found at a path,
    [None] where there is nothing to find. *)
Definition FileSystem := string -> option FileInfo.

(** [os.Stat(name)], [None] where it returns an error.  A name that holds a
    NUL byte is refused (EINVAL) before the file system is asked. *)
Definition Stat (fs : FileSystem) (name : string) : option FileInfo :=
  if NUL_free name then fs name else None.

End os.

(** The newline cutset of [Text]. *)
Definition newline : ascii := "010"%char.
Definition nl : string := String newline EmptyString.

(** ** Errors *)

(** The error values client.go returns; Go's [nil] error is [None]. *)
Inductive error :=
| StatError (path : string)
    (* the error of os.Stat, returned as it is by SetConfigFile *)
| ConfigIsDirectory
    (* "the specified config file path seems to be a directory" *)
| InitFailed (code : Z)
    (* "failed to initialize TessBaseAPI with code %d" *)
| SetVariableFailed (key value : string).
    (* "failed to set variable with key(%s):value(%s)" *)

(** A Go call either returns or panics. *)
Inductive outcome (A : Type) :=
| Returns (a : A)
| Panics (msg : string).
Arguments Returns {A} a.
Arguments Panics {A} msg.

(** ** The engine behind cgo *)

(** [C.int(x)] of a Go [int]: the low 32 bits, two's complement. *)
Definition C_int (x : Z) : Z := (x + 2 ^ 31) mod 2 ^ 32 - 2 ^ 31.

(** The functions of tessbridge.h that client.go calls, on the state of the
    object a [C.TessBaseAPI] handle points to.  A string argument is the C
    string the callee reads, a null pointer is [None]; a string result is
    the Go string [C.GoString] makes of the C string returned. *)
Class Engine := {
  TessBaseAPI : Type;
  C_Create : TessBaseAPI;
  C_Free : TessBaseAPI -> TessBaseAPI;
  C_Version : TessBaseAPI -> string;
  C_Init : TessBaseAPI -> option string -> option string -> option string ->
           TessBaseAPI * Z;
  C_SetImage : TessBaseAPI -> string -> TessBaseAPI;
  C_SetVariable : TessBaseAPI -> string -> string -> TessBaseAPI * bool;
  C_SetPageSegMode : TessBaseAPI -> Z -> TessBaseAPI;
  C_UTF8Text : TessBaseAPI -> TessBaseAPI * string;
  C_HOCRText : TessBaseAPI -> TessBaseAPI * string
}.

(** One call through cgo, with its arguments as the C side reads them. *)
Inductive CCall :=
| CallCreate
| CallFree
| CallVersion
| CallInit (datapath langs config : option string)
| CallSetImage (imagepath : string)
| CallSetVariable (key value : string)
| CallSetPageSegMode (mode : Z)
| CallUTF8Text
| CallHOCRText.

(** ** Client *)

(** The fields of [Client] other than [api].  [api] is a pointer that never
    changes after [NewClient]; the object it points to is the state the
    [cgo] computations below thread.  A nil map is [None]. *)
Record Client := {
  Trim : bool;
  TessdataPrefix : option string;
  Languages : list string;
  ImagePath : string;
  Variables : option (gmap string string);
  PageSegMode : option Z;
  ConfigFilePath : string
}.

Definition set_ImagePath (c : Client) (p : string) : Client :=
  {| Trim := Trim c; TessdataPrefix := TessdataPrefix c; Languages := Languages c;
     ImagePath := p; Variables := Variables c; PageSegMode := PageSegMode c;
     ConfigFilePath := ConfigFilePath c |}.

Definition set_Languages (c : Client) (l : list string) : Client :=
  {| Trim := Trim c; TessdataPrefix := TessdataPrefix c; Languages := l;
     ImagePath := ImagePath c; Variables := Variables c; PageSegMode := PageSegMode c;
     ConfigFilePath := ConfigFilePath c |}.

Definition set_Variables (c : Client) (m : option (gmap string string)) : Client :=
  {| Trim := Trim c; TessdataPrefix := TessdataPrefix c; Languages := Languages c;
     ImagePath := ImagePath c; Variables := m; PageSegMode := PageSegMode c;
     ConfigFilePath := ConfigFilePath c |}.

Definition set_PageSegMode (c : Client) (m : option Z) : Client :=
  {| Trim := Trim c; TessdataPrefix := TessdataPrefix c; Languages := Languages c;
     ImagePath := ImagePath c; Variables := Variables c; PageSegMode := m;
     ConfigFilePath := ConfigFilePath c |}.

Definition set_ConfigFilePath (c : Client) (p : string) : Client :=
  {| Trim := Trim c; TessdataPrefix := TessdataPrefix c; Languages := Languages c;
     ImagePath := ImagePath c; Variables := Variables c; PageSegMode := PageSegMode c;
     ConfigFilePath := p |}.

(** *** The setters: Go only, no engine call *)

(** [SetImage]: [c.ImagePath = imagepath]. *)
Definition SetImage (c : Client) (imagepath : string) : Client :=
  set_ImagePath c imagepath.

(** [SetLanguage]: [c.Languages = langs]. *)
Definition SetLanguage (c : Client) (langs : list string) : Client :=
  set_Languages c langs.

(** [SetVariable]: [c.Variables[key] = value]; an assignment to an entry of a
    nil map panics. *)
Definition SetVariable (c : Client) (key value : string) : outcome Client :=
  match Variables c with
  | Some m => Returns (set_Variables c (Some (<[key := value]> m)))
  | None => Panics "assignment to entry in nil map"
  end.

(** [SetWhitelist]: [c.SetVariable("tessedit_char_whitelist", whitelist)]. *)
Definition SetWhitelist (c : Client) (whitelist : string) : outcome Client :=
  SetVariable c "tessedit_char_whitelist" whitelist.

(** [SetPageSegMode]: [c.PageSegMode = &mode]. *)
Definition SetPageSegMode (c : Client) (mode : Z) : Client :=
  set_PageSegMode c (Some mode).

(** [SetConfigFile]: the path is stored when [os.Stat] finds it and it is
    not a directory. *)
Definition SetConfigFile (fs : os.FileSystem) (c : Client) (fpath : string)
  : Client * option error :=
  match os.Stat fs fpath with
  | None => (c, Some (StatError fpath))
  | Some info =>
      if os.IsDir info then (c, Some ConfigIsDirectory)
      else (set_ConfigFilePath c fpath, None)
  end.

(** [charLangs]: the C string of the joined languages, a null pointer for
    no language. *)
Definition charLangs (c : Client) : option string :=
  if negb (Nat.eqb (List.length (Languages c)) 0)
  then Some (C_CString (strings.Join (Languages c) "+"))
  else None.

(** [charConfig]: the C string of the stored path when [os.Stat] returns no
    error for it, a null pointer otherwise. *)
Definition charConfig (fs : os.FileSystem) (c : Client) : option string :=
  match os.Stat fs (ConfigFilePath c) with
  | Some _ => Some (C_CString (ConfigFilePath c))
  | None => None
  end.

(** *** Calls through cgo *)

Section WithEngine.

Context {E : Engine}.

(** A computation that calls into the engine: from the state of the object
    behind [c.api] to a result, the state afterwards and the calls made, in
    order. *)
Definition cgo (A : Type) : Type := TessBaseAPI -> A * TessBaseAPI * list CCall.

Definition ret {A} (a : A) : cgo A := fun api => (a, api, []).

Definition bind {A B} (m : cgo A) (f : A -> cgo B) : cgo B :=
  fun api =>
    let '(a, api1, t1) := m api in
    let '(b, api2, t2) := f a api1 in
    (b, api2, (t1 ++ t2)%list).

Notation "'let*' x ':=' m 'in' f" := (bind m (fun x => f))
  (at level 10, x name, m at level 100, f at level 200).
Notation "m ';;' f" := (bind m (fun _ => f))
  (at level 100, f at level 200, right associativity).

Definition result {A} (r : A * TessBaseAPI * list CCall) : A := fst (fst r).
Definition handle {A} (r : A * TessBaseAPI * list CCall) : TessBaseAPI := snd (fst r).
Definition calls {A} (r : A * TessBaseAPI * list CCall) : list CCall := snd r.

Definition Free : cgo unit :=
  fun api => (tt, C_Free api, [CallFree]).

Definition Init (datapath langs config : option string) : cgo Z :=
  fun api => let '(api', res) := C_Init api datapath langs config in
             (res, api', [CallInit datapath langs config]).

Definition SetImage_ (imagepath : string) : cgo unit :=
  fun api => (tt, C_SetImage api imagepath, [CallSetImage imagepath]).

Definition SetVariable_ (k v : string) : cgo bool :=
  fun api => let '(api', res) := C_SetVariable api k v in
             (res, api', [CallSetVariable k v]).

Definition SetPageSegMode_ (mode : Z) : cgo unit :=
  fun api => (tt, C_SetPageSegMode api mode, [CallSetPageSegMode mode]).

Definition UTF8Text : cgo string :=
  fun api => let '(api', out) := C_UTF8Text api in (out, api', [CallUTF8Text]).

Definition HOCRText : cgo string :=
  fun api => let '(api', out) := C_HOCRText api in (out, api', [CallHOCRText]).

(** [Version]: an engine object of its own, created, asked and freed. *)
Definition Version : string * list CCall :=
  (C_Version C_Create, [CallCreate; CallVersion; CallFree]).

(** [NewClient]: a fresh engine object, an empty map, [Trim] on. *)
Definition NewClient : Client * TessBaseAPI * list CCall :=
  ({| Trim := true; TessdataPrefix := None; Languages := []; ImagePath := "";
      Variables := Some ∅; PageSegMode := None; ConfigFilePath := "" |},
   C_Create, [CallCreate]).

(** [Close]: [C.Free(c.api)], then [return err] of a named result nothing
    assigns. *)
Definition Close (c : Client) : cgo (option error) :=
  let err : option error := None in
  Free ;; ret err.

(** [init]: [C.Init(c.api, nil, langs, config)], an error for a result other
    than 0. *)
Definition init (fs : os.FileSystem) (c : Client) : cgo (option error) :=
  let langs := charLangs c in
  let config := charConfig fs c in
  let* res := Init None langs config in
  if negb (Z.eqb res 0) then ret (Some (InitFailed res))
  else ret None.

(** [bind]: one variable handed to the engine, key and value as C strings. *)
Definition bind_ (key value : string) : cgo bool :=
  SetVariable_ (C_CString key) (C_CString value).

(** The loop of [prepare] over the entries in the order the range statement
    yields them: it returns at the first entry the engine rejects. *)
Fixpoint bind_all (entries : list (string * string)) : cgo (option error) :=
  match entries with
  | [] => ret None
  | (key, value) :: rest =>
      let* ok := bind_ key value in
      if negb ok then ret (Some (SetVariableFailed key value))
      else bind_all rest
  end.

(** The entries a range statement over a map visits, in the order of that
    run; a nil map has none. *)
Definition range (iter : gmap string string -> list (string * string))
    (m : option (gmap string string)) : list (string * string) :=
  match m with
  | Some m => iter m
  | None => []
  end.

(** [prepare]: the image, the variables, then the page segmentation mode
    when there is one. *)
Definition prepare (iter : gmap string string -> list (string * string))
    (c : Client) : cgo (option error) :=
  SetImage_ (C_CString (ImagePath c)) ;;
  let* err := bind_all (range iter (Variables c)) in
  match err with
  | Some e => ret (Some e)
  | None =>
      match PageSegMode c with
      | Some mode => SetPageSegMode_ (C_int mode) ;; ret None
      | None => ret None
      end
  end.

(** [Text]: [init], [prepare], the text of the engine, trimmed of newlines
    when [c.Trim] is set.  An early return leaves [out] empty. *)
Definition Text (fs : os.FileSystem)
    (iter : gmap string string -> list (string * string))
    (c : Client) : cgo (string * option error) :=
  let* err := init fs c in
  match err with
  | Some e => ret ("", Some e)
  | None =>
      let* err := prepare iter c in
      match err with
      | Some e => ret ("", Some e)
      | None =>
          let* out := UTF8Text in
          let out := if Trim c then strings.Trim out nl else out in
          ret (out, None)
      end
  end.

(** [HTML]: [init], [prepare], the hOCR text of the engine, as it is. *)
Definition HTML (fs : os.FileSystem)
    (iter : gmap string string -> list (string * string))
    (c : Client) : cgo (string * option error) :=
  let* err := init fs c in
  match err with
  | Some e => ret ("", Some e)
  | None =>
      let* err := prepare iter c in
      match err with
      | Some e => ret ("", Some e)
      | None =>
          let* out := HOCRText in
          ret (out, None)
      end
  end.

End WithEngine.

(** *** Every method of a Client behind one entry point *)

(** The exported methods of [*Client]. *)
Inductive Method :=
| MClose
| MSetImage (imagepath : string)
| MSetLanguage (langs : list string)
| MSetWhitelist (whitelist : string)
| MSetVariable (key value : string)
| MSetPageSegMode (mode : Z)
| MSetConfigFile (fpath : string)
| MText
| MHTML.

(** What a method call leaves behind: the Client, and the string and error
    it returns (empty and nil for a method that returns neither). *)
Record reply := { self : Client; out : string; err : option error }.

Definition chained (o : outcome Client) : outcome reply :=
  match o with
  | Returns c => Returns {| self := c; out := ""; err := None |}
  | Panics msg => Panics msg
  end.

Section Invoke.

Context {E : Engine}.
Variable fs : os.FileSystem.
Variable iter : gmap string string -> list (string * string).

(** The call [c.m(...)], with the file system and the map order of that
    moment. *)
Definition invoke (m : Method) (c : Client) : cgo (outcome reply) :=
  match m with
  | MClose =>
      bind (Close c) (fun e => ret (Returns {| self := c; out := ""; err := e |}))
  | MSetImage p => ret (chained (Returns (SetImage c p)))
  | MSetLanguage l => ret (chained (Returns (SetLanguage c l)))
  | MSetWhitelist w => ret (chained (SetWhitelist c w))
  | MSetVariable k v => ret (chained (SetVariable c k v))
  | MSetPageSegMode mode => ret (chained (Returns (SetPageSegMode c mode)))
  | MSetConfigFile p =>
      let '(c', e) := SetConfigFile fs c p in
      ret (Returns {| self := c'; out := ""; err := e |})
  | MText =>
      bind (Text fs iter c)
           (fun r => ret (Returns {| self := c; out := fst r; err := snd r |}))
  | MHTML =>
      bind (HTML fs iter c)
           (fun r => ret (Returns {| self := c; out := fst r; err := snd r |}))
  end.

End Invoke.

(** The methods that only write a field of the Client. *)
Definition is_setter (m : Method) : bool :=
  match m with
  | MClose | MText | MHTML => false
  | _ => true
  end.

(** ** A simulated engine and file systems to run the model on *)

Module Sim.

(** What the simulated engine remembers of the calls it received. *)
Record state := {
  langs : option string;
  config : option string;
  image : string;
  vars : gmap string string;
  psm : option Z
}.

Definition blank : state :=
  {| langs := None; config := None; image := ""; vars := ∅; psm := None |}.

(** The pictures the simulated engine can read. *)
Definition ocr (imagepath : string) : string :=
  if String.eqb imagepath "hello.png" then nl +:+ "Hello World" +:+ nl
  else if String.eqb imagepath "spaces.png" then " Hello World "
  else "".

(** Initialisation starts from scratch; the language "xx" has no data. *)
Definition sim_Init (s : state) (datapath l cfg : option string) : state * Z :=
  ({| langs := l; config := cfg; image := ""; vars := ∅; psm := None |},
   match l with
   | Some l => if String.eqb l "xx" then (-1) else 0
   | None => 0
   end).

(** A variable is rejected when its name is empty. *)
Definition sim_SetVariable (s : state) (k v : string) : state * bool :=
  if String.eqb k "" then (s, false)
  else ({| langs := langs s; config := config s; image := image s;
           vars := <[k := v]> (vars s); psm := psm s |}, true).

#[export] Instance engine : Engine := {|
  TessBaseAPI := state;
  C_Create := blank;
  C_Free := fun _ => blank;
  C_Version := fun _ => "sim";
  C_Init := sim_Init;
  C_SetImage := fun s p =>
    {| langs := langs s; config := config s; image := p; vars := vars s; psm := psm s |};
  C_SetVariable := sim_SetVariable;
  C_SetPageSegMode := fun s m =>
    {| langs := langs s; config := config s; image := image s; vars := vars s;
       psm := Some m |};
  C_UTF8Text := fun s => (s, ocr (image s));
  C_HOCRText := fun s => (s, "<p>" +:+ ocr (image s) +:+ "</p>")
|}.

(** A file system with one regular file, and the same path as a directory. *)
Definition one_file (path : string) : os.FileSystem :=
  fun p => if String.eqb p path then Some {| os.IsDir := false |} else None.

Definition one_dir (path : string) : os.FileSystem :=
  fun p => if String.eqb p path then Some {| os.IsDir := true |} else None.

Definition no_file : os.FileSystem := fun _ => None.

(** A client as [NewClient] makes it, then configured through the setters. *)
Definition fresh : Client := fst (fst NewClient).

End Sim.

(** An engine that adapts to what it has read: the first reading of a page
    is worse than the later ones, and [C.Init] does not make it forget. *)
Module Adaptive.

Record state := { pages : nat; image : string }.

Definition blank : state := {| pages := 0; image := "" |}.

Definition read (s : state) : string :=
  if Nat.eqb (pages s) 0 then "He11o World" else "Hello World".

Definition engine : Engine := {|
  TessBaseAPI := state;
  C_Create := blank;
  C_Free := fun s => s;
  C_Version := fun _ => "adaptive";
  C_Init := fun s _ _ _ => ({| pages := pages s; image := "" |}, 0);
  C_SetImage := fun s p => {| pages := pages s; image := p |};
  C_SetVariable := fun s _ _ => (s, true);
  C_SetPageSegMode := fun s _ => s;
  C_UTF8Text := fun s => ({| pages := S (pages s); image := image s |}, read s);
  C_HOCRText := fun s =>
    ({| pages := S (pages s); image := image s |}, "<p>" +:+ read s +:+ "</p>")
|}.

End Adaptive.

(** ** The vocabulary of the statements *)

(** [n] newline bytes. *)
Fixpoint newlines (n : nat) : string :=
  match n with
  | O => EmptyString
  | S n => String newline (newlines n)
  end.

Definition first_byte (s : string) : option ascii :=
  match s with
  | EmptyString => None
  | String b _ => Some b
  end.

Fixpoint last_byte (s : string) : option ascii :=
  match s with
  | EmptyString => None
  | String b EmptyString => Some b
  | String _ rest => last_byte rest
  end.

(** Joining as the spec words it: start from the first element and append
    a '+' and the next element, in order. *)
Definition plus_joined (first : string) (rest : list string) : string :=
  fold_left (fun acc l => acc +:+ "+" +:+ l) rest first.

(** The calls that bind the entries [l], in order: each hands over the C
    strings of a key and its value. *)
Definition binding_calls (l : list (string * string)) : list CCall :=
  map (fun kv => CallSetVariable (C_CString (fst kv)) (C_CString (snd kv))) l.

(** The call that sets the page segmentation mode, when there is one. *)
Definition mode_calls (c : Client) : list CCall :=
  match PageSegMode c with
  | Some mode => [CallSetPageSegMode (C_int mode)]
  | None => []
  end.


(** The order of a range statement over a map: each entry once. *)
Definition map_order (iter : gmap string string -> list (string * string)) : Prop :=
  forall m, iter m ≡ₚ map_to_list m.

(** The names the engine reads for the keys of [l], in order. *)
Definition C_names (l : list (string * string)) : list string :=
  (fun kv => C_CString (fst kv)) <$> l.

(** No two keys of the map of [c] are one name to the engine. *)
Definition distinct_C_names (c : Client) : Prop :=
  match Variables c with
  | Some m => NoDup (C_names (map_to_list m))
  | None => True
  end.

(** Modelled from the spec: the body of [SetVariable] in the bridge to the
    engine is not part of client.go.  The spec has the bindings of a map
    independent of each other, their order irrelevant: for two names that
    differ as the engine reads them (C strings, so free of NUL), the order
    of the two calls changes neither the state they leave nor whether the
    engine accepts each. *)
Definition independent_bindings (E : Engine) : Prop :=
  forall (a : TessBaseAPI) (k1 v1 k2 v2 : string),
    NUL_free k1 = true -> NUL_free k2 = true -> k1 <> k2 ->
    fst (C_SetVariable (fst (C_SetVariable a k1 v1)) k2 v2)
    = fst (C_SetVariable (fst (C_SetVariable a k2 v2)) k1 v1)
    /\ snd (C_SetVariable (fst (C_SetVariable a k1 v1)) k2 v2)
       = snd (C_SetVariable a k2 v2).

Section Vocabulary.

Context {E : Engine}.

(** The state after binding all of [l], when the engine accepts all. *)
Fixpoint bound (l : list (string * string)) (api : TessBaseAPI) : option TessBaseAPI :=
  match l with
  | [] => Some api
  | (k, v) :: rest =>
      if snd (C_SetVariable api (C_CString k) (C_CString v))
      then bound rest (fst (C_SetVariable api (C_CString k) (C_CString v)))
      else None
  end.

(** A run [r] of [Text] or [HTML] from the engine state [api] that returned
    the error [e]: the returned string is empty, no text was asked of the
    engine, and either [C.Init] gave a code other than 0 and was the only
    call, or [C.Init] gave 0, the image was set, the engine accepted the
    entries [done] and rejected the next entry of the map, which [e] names
    by its Go key and value and whose call is the last one. *)
Definition aborted (fs : os.FileSystem)
    (iter : gmap string string -> list (string * string))
    (c : Client) (api : TessBaseAPI)
    (r : (string * option error) * TessBaseAPI * list CCall) (e : error) : Prop :=
  let started := C_Init api None (charLangs c) (charConfig fs c) in
  let ready := C_SetImage (fst started) (C_CString (ImagePath c)) in
  result r = ("", Some e)
  /\ ~ In CallUTF8Text (calls r)
  /\ ~ In CallHOCRText (calls r)
  /\ ((exists code,
         e = InitFailed code /\ code <> 0 /\ snd started = code
         /\ handle r = fst started
         /\ calls r = [CallInit None (charLangs c) (charConfig fs c)])
      \/ (exists done k v rest m,
            e = SetVariableFailed k v
            /\ snd started = 0
            /\ Variables c = Some m /\ m !! k = Some v
            /\ iter m = (done ++ (k, v) :: rest)%list
            /\ result (bind_all done ready) = None
            /\ snd (C_SetVariable (handle (bind_all done ready))
                      (C_CString k) (C_CString v)) = false
            /\ calls r = (CallInit None (charLangs c) (charConfig fs c)
                          :: CallSetImage (C_CString (ImagePath c))
                          :: binding_calls done
                          ++ [CallSetVariable (C_CString k) (C_CString v)])%list)).

End Vocabulary.

(** ** Drivers and vocabulary for the further properties *)

(** [c.Trim = b]: [Trim] is an exported field, written directly. *)
Definition set_Trim (c : Client) (b : bool) : Client :=
  {| Trim := b; TessdataPrefix := TessdataPrefix c; Languages := Languages c;
     ImagePath := ImagePath c; Variables := Variables c; PageSegMode := PageSegMode c;
     ConfigFilePath := ConfigFilePath c |}.

(** The byte '+', the separator of [charLangs]. *)
Definition plus : ascii := "+"%char.

(** No byte of [s] is a '+'. *)
Fixpoint plus_free (s : string) : bool :=
  match s with
  | EmptyString => true
  | String b rest => negb (Ascii.eqb b plus) && plus_free rest
  end.

(** A piece that comes after a language in the identifier: nothing, or a
    '+' and more. *)
Definition plus_led (t : string) : Prop := t = "" \/ first_byte t = Some plus.

(** One method call of a program: the method, with the file system and the
    map order of the moment it runs. *)
Record step := {
  at_fs : os.FileSystem;
  at_iter : gmap string string -> list (string * string);
  method : Method
}.

Section Programs.

Context {E : Engine}.

(** The calls [steps] on one Client, one after the other; a panic ends the
    program.  The result is the Client after the last call. *)
Fixpoint invoke_all (steps : list step) (c : Client) : cgo (outcome Client) :=
  match steps with
  | [] => ret (Returns c)
  | s :: rest =>
      bind (invoke (at_fs s) (at_iter s) (method s) c)
           (fun r => match r with
                     | Returns r => invoke_all rest (self r)
                     | Panics msg => ret (Panics msg)
                     end)
  end.

End Programs.

(** The field of the Client a setter writes. *)
Inductive field := FImagePath | FLanguages | FVariables | FPageSegMode | FConfigFilePath.

Definition written (m : Method) : option field :=
  match m with
  | MSetImage _ => Some FImagePath
  | MSetLanguage _ => Some FLanguages
  | MSetWhitelist _ | MSetVariable _ _ => Some FVariables
  | MSetPageSegMode _ => Some FPageSegMode
  | MSetConfigFile _ => Some FConfigFilePath
  | MClose | MText | MHTML => None
  end.

(** How many of the calls are [C.Free]. *)
Definition frees (t : list CCall) : nat :=
  List.length (List.filter (fun x => match x with CallFree => true | _ => false end) t).

(** How many of the steps are a [Close]. *)
Definition closes (steps : list step) : nat :=
  List.length (List.filter (fun s => match method s with MClose => true | _ => false end)
                 steps).

(** ** The model at work *)

Example sim_text_hello :
  result (Text (E := Sim.engine) Sim.no_file map_to_list (SetImage Sim.fresh "hello.png") Sim.blank)
  = ("Hello World", None).
Proof. vm_compute. reflexivity. Qed.

Example sim_join : strings.Join ["eng"; "fra"; "deu"] "+" = "eng+fra+deu".
Proof. reflexivity. Qed.

(** ** Facts on the string functions *)

Lemma append_String (x : ascii) (a b : string) :
  String x a +:+ b = String x (a +:+ b).
Proof. reflexivity. Qed.

Lemma append_nil_l (b : string) : "" +:+ b = b.
Proof. reflexivity. Qed.

(** stdpp keeps [simpl] from unfolding the append of strings: these two
    equations do the step. *)
Ltac string_step :=
  cbn [newlines first_byte last_byte]; rewrite ?append_String, ?append_nil_l.

Lemma append_assoc (a b c : string) : (a +:+ b) +:+ c = a +:+ (b +:+ c).
Proof.
  induction a as [|x a IH]; string_step; [reflexivity | now rewrite IH].
Qed.

Lemma NUL_free_cons (b : ascii) (s : string) :
  NUL_free (String b s) = true <-> b <> NUL /\ NUL_free s = true.
Proof.
  cbn [NUL_free]. rewrite andb_true_iff, negb_true_iff.
  destruct (Ascii.eqb_spec b NUL); split; intros [? ?]; split; congruence.
Qed.

(** A string with no NUL byte crosses to C whole. *)
Lemma C_CString_id (s : string) : NUL_free s = true -> C_CString s = s.
Proof.
  induction s as [|b s IH]; [reflexivity|].
  rewrite NUL_free_cons. intros [Hb Hs]. cbn [C_CString].
  destruct (Ascii.eqb_spec b NUL); [congruence | now rewrite IH].
Qed.

Lemma C_CString_NUL_free (s : string) : NUL_free (C_CString s) = true.
Proof.
  induction s as [|b s IH]; [reflexivity|]. cbn [C_CString].
  destruct (Ascii.eqb_spec b NUL) as [|Hb]; [reflexivity|].
  apply NUL_free_cons. auto.
Qed.

(** What [os.Stat] accepts has no NUL byte. *)
Lemma Stat_NUL_free (fs : os.FileSystem) (name : string) (info : os.FileInfo) :
  os.Stat fs name = Some info -> NUL_free name = true.
Proof. unfold os.Stat. destruct (NUL_free name); [reflexivity | discriminate]. Qed.

Lemma Join_cons (e : string) (rest : list string) (sep : string) :
  rest <> [] -> strings.Join (e :: rest) sep = e +:+ sep +:+ strings.Join rest sep.
Proof. destruct rest; [congruence | reflexivity]. Qed.

Lemma fold_join_prefix (sep p a : string) (l : list string) :
  fold_left (fun acc x => acc +:+ sep +:+ x) l (p +:+ a)
  = p +:+ fold_left (fun acc x => acc +:+ sep +:+ x) l a.
Proof.
  revert a. induction l as [|x l IH]; intros a; cbn [fold_left]; [reflexivity|].
  rewrite <- IH. f_equal. now rewrite append_assoc.
Qed.

Lemma Join_fold (first : string) (rest : list string) (sep : string) :
  strings.Join (first :: rest) sep
  = fold_left (fun acc x => acc +:+ sep +:+ x) rest first.
Proof.
  revert first. induction rest as [|x rest IH]; intros first; [reflexivity|].
  rewrite Join_cons by discriminate. rewrite IH. cbn [fold_left].
  rewrite <- (append_assoc first sep x), fold_join_prefix.
  symmetry. apply append_assoc.
Qed.

Lemma NUL_free_append (a b : string) :
  NUL_free (a +:+ b) = NUL_free a && NUL_free b.
Proof.
  induction a as [|x a IH]; [reflexivity|].
  rewrite append_String. cbn [NUL_free]. now rewrite IH, andb_assoc.
Qed.

Lemma plus_joined_NUL_free (first : string) (rest : list string) :
  NUL_free first = true -> Forall (fun l => NUL_free l = true) rest ->
  NUL_free (plus_joined first rest) = true.
Proof.
  unfold plus_joined. revert first.
  induction rest as [|l rest IH]; intros first Hfirst Hrest; [exact Hfirst|].
  apply Forall_cons in Hrest as [Hl Hrest]. cbn [fold_left]. apply IH; [|exact Hrest].
  rewrite !NUL_free_append, Hfirst, Hl. reflexivity.
Qed.

Lemma in_cutset_nl (b : ascii) : strings.in_cutset b nl = Ascii.eqb b newline.
Proof. simpl. now destruct (Ascii.eqb b newline). Qed.

Lemma TrimLeft_nl (s : string) :
  exists a, s = newlines a +:+ strings.TrimLeft s nl
            /\ first_byte (strings.TrimLeft s nl) <> Some newline.
Proof.
  induction s as [|b s [a [Hs Hf]]].
  - exists O. split; [reflexivity | discriminate].
  - cbn [strings.TrimLeft]. rewrite in_cutset_nl.
    destruct (Ascii.eqb_spec b newline) as [-> | Hb].
    + exists (S a). split; [string_step; now rewrite <- Hs | exact Hf].
    + exists O. split; [reflexivity | string_step; congruence].
Qed.

Lemma TrimRight_nl (s : string) :
  exists b, s = strings.TrimRight s nl +:+ newlines b
            /\ last_byte (strings.TrimRight s nl) <> Some newline.
Proof.
  induction s as [|x s [b [Hs Hl]]].
  - exists O. split; [reflexivity | discriminate].
  - cbn [strings.TrimRight]. rewrite in_cutset_nl.
    destruct (strings.TrimRight s nl) as [|y kept] eqn:Hk.
    + rewrite append_nil_l in Hs.
      destruct (Ascii.eqb_spec x newline) as [-> | Hx].
      * exists (S b). split; [string_step; now rewrite <- Hs | discriminate].
      * exists b. split; [string_step; now rewrite <- Hs | string_step; congruence].
    + exists b. rewrite append_String in Hs.
      split; [string_step; now rewrite <- Hs | exact Hl].
Qed.

Lemma last_byte_TrimLeft (s : string) :
  last_byte s <> Some newline -> last_byte (strings.TrimLeft s nl) <> Some newline.
Proof.
  induction s as [|b s IH]; intros Hl; [exact Hl|].
  cbn [strings.TrimLeft]. rewrite in_cutset_nl.
  destruct (Ascii.eqb_spec b newline) as [-> | Hb]; [|exact Hl].
  apply IH. destruct s; [simpl in Hl; congruence | exact Hl].
Qed.

(** What [strings.Trim(s, "\n")] is: [s] without the newlines at its two
    ends, and neither its first nor its last byte is a newline. *)
Lemma Trim_nl (s : string) :
  exists a b, s = newlines a +:+ strings.Trim s nl +:+ newlines b
              /\ first_byte (strings.Trim s nl) <> Some newline
              /\ last_byte (strings.Trim s nl) <> Some newline.
Proof.
  unfold strings.Trim.
  destruct (TrimRight_nl s) as [b [Hr Hlast]].
  destruct (TrimLeft_nl (strings.TrimRight s nl)) as [a [Hl Hfirst]].
  exists a, b. split; [|split].
  - rewrite <- append_assoc, <- Hl. exact Hr.
  - exact Hfirst.
  - now apply last_byte_TrimLeft.
Qed.

Lemma TrimRight_id (s : string) :
  last_byte s <> Some newline -> strings.TrimRight s nl = s.
Proof.
  induction s as [|b s IH]; intros Hl; [reflexivity|].
  cbn [strings.TrimRight]. rewrite in_cutset_nl.
  destruct s as [|y s].
  - simpl. destruct (Ascii.eqb_spec b newline) as [-> | Hb]; [simpl in Hl; congruence | reflexivity].
  - rewrite IH by exact Hl. reflexivity.
Qed.

Lemma TrimLeft_id (s : string) :
  first_byte s <> Some newline -> strings.TrimLeft s nl = s.
Proof.
  destruct s as [|b s]; intros Hf; [reflexivity|].
  cbn [strings.TrimLeft]. rewrite in_cutset_nl.
  destruct (Ascii.eqb_spec b newline) as [-> | Hb]; [simpl in Hf; congruence | reflexivity].
Qed.

Lemma Trim_id (s : string) :
  first_byte s <> Some newline -> last_byte s <> Some newline ->
  strings.Trim s nl = s.
Proof.
  intros Hf Hl. unfold strings.Trim. rewrite TrimRight_id by exact Hl.
  now apply TrimLeft_id.
Qed.

(** ** What [init] does *)

Section InitFacts.

Context {E : Engine}.

Lemma result_run {A} (x : A) (a : TessBaseAPI) (t : list CCall) : result (x, a, t) = x.
Proof. reflexivity. Qed.

Lemma handle_run {A} (x : A) (a : TessBaseAPI) (t : list CCall) : handle (x, a, t) = a.
Proof. reflexivity. Qed.

Lemma calls_run {A} (x : A) (a : TessBaseAPI) (t : list CCall) : calls (x, a, t) = t.
Proof. reflexivity. Qed.

(** [init] is one call of [C.Init], with no data path, the joined
    languages and the checked configuration path; its error is the code of
    the engine when that is not 0. *)
Lemma init_run (fs : os.FileSystem) (c : Client) (api : TessBaseAPI) :
  init fs c api =
  (let res := snd (C_Init api None (charLangs c) (charConfig fs c)) in
   if Z.eqb res 0 then None else Some (InitFailed res),
   fst (C_Init api None (charLangs c) (charConfig fs c)),
   [CallInit None (charLangs c) (charConfig fs c)]).
Proof.
  unfold init, bind, Init, ret.
  destruct (C_Init api None (charLangs c) (charConfig fs c)) as [api' res].
  cbn [fst snd]. destruct (Z.eqb res 0); reflexivity.
Qed.

Lemma init_calls (fs : os.FileSystem) (c : Client) (api : TessBaseAPI) :
  calls (init fs c api) = [CallInit None (charLangs c) (charConfig fs c)].
Proof. now rewrite init_run. Qed.

Lemma init_error (fs : os.FileSystem) (c : Client) (api : TessBaseAPI) (e : error) :
  result (init fs c api) = Some e ->
  exists code, e = InitFailed code /\ code <> 0
               /\ snd (C_Init api None (charLangs c) (charConfig fs c)) = code.
Proof.
  rewrite init_run. unfold result. cbn [fst snd].
  destruct (Z.eqb_spec (snd (C_Init api None (charLangs c) (charConfig fs c))) 0) as [Hz | Hnz];
    [discriminate|].
  intros [= <-]. eauto.
Qed.

Lemma init_ok (fs : os.FileSystem) (c : Client) (api : TessBaseAPI) :
  result (init fs c api) = None <->
  snd (C_Init api None (charLangs c) (charConfig fs c)) = 0.
Proof.
  rewrite init_run. unfold result. cbn [fst snd].
  destruct (Z.eqb_spec (snd (C_Init api None (charLangs c) (charConfig fs c))) 0);
    split; congruence.
Qed.

End InitFacts.

Lemma charLangs_spec (c : Client) :
  charLangs c = match Languages c with
                | [] => None
                | first :: rest => Some (C_CString (plus_joined first rest))
                end.
Proof.
  unfold charLangs, plus_joined. destruct (Languages c) as [|first rest]; [reflexivity|].
  cbn [List.length Nat.eqb negb]. now rewrite Join_fold.
Qed.

Lemma charConfig_Some (fs : os.FileSystem) (c : Client) (p : string) :
  charConfig fs c = Some p ->
  p = ConfigFilePath c /\ exists info, os.Stat fs p = Some info.
Proof.
  unfold charConfig. destruct (os.Stat fs (ConfigFilePath c)) as [info|] eqn:Hs; [|discriminate].
  rewrite (C_CString_id _ (Stat_NUL_free _ _ _ Hs)). intros [= <-]. eauto.
Qed.

Lemma SetConfigFile_ok (fs : os.FileSystem) (c c' : Client) (fpath : string) :
  SetConfigFile fs c fpath = (c', None) ->
  c' = set_ConfigFilePath c fpath /\ os.Stat fs fpath = Some {| os.IsDir := false |}.
Proof.
  unfold SetConfigFile. destruct (os.Stat fs fpath) as [[d]|]; [|discriminate].
  cbn [os.IsDir]. destruct d; [discriminate|]. now intros [= <-].
Qed.

(** ** The conversion to [C.int] and the map of a Client *)

Lemma C_int_range (x : Z) : - 2 ^ 31 <= C_int x < 2 ^ 31.
Proof.
  unfold C_int. pose proof (Z.mod_pos_bound (x + 2 ^ 31) (2 ^ 32) eq_refl). lia.
Qed.

Lemma C_int_small (x : Z) : - 2 ^ 31 <= x < 2 ^ 31 -> C_int x = x.
Proof. intros Hx. unfold C_int. rewrite Z.mod_small; lia. Qed.

Lemma NewClient_map {E : Engine} : Variables (fst (fst NewClient)) = Some ∅.
Proof. reflexivity. Qed.

(** With a map that is not nil no method panics, and the map is not nil
    afterwards: a Client made by [NewClient] never meets the panic of
    [SetVariable]. *)
Lemma map_stays {E : Engine} fs iter (m : Method) (c : Client) (api : TessBaseAPI) :
  Variables c <> None ->
  exists r, result (invoke fs iter m c api) = Returns r /\ Variables (self r) <> None.
Proof.
  intros Hmap. destruct m; cbn [invoke]; unfold bind, ret, result.
  - destruct (Close c api) as [[e a] t]. cbn. eauto.
  - cbn. eauto.
  - cbn. eauto.
  - unfold SetWhitelist, SetVariable. destruct (Variables c); [cbn; eauto | congruence].
  - unfold SetVariable. destruct (Variables c); [cbn; eauto | congruence].
  - cbn. eauto.
  - unfold SetConfigFile. destruct (os.Stat fs fpath) as [[[]]|]; cbn; eauto.
  - destruct (Text fs iter c api) as [[r a] t]. cbn. eauto.
  - destruct (HTML fs iter c api) as [[r a] t]. cbn. eauto.
Qed.

(** ** The claims *)

(** C3, as the code has it: [init] hands the engine one language
    identifier, the C string of the elements of [Languages] in their order
    with a single '+' between each two neighbours: the bytes of that join
    before its first NUL byte, so the whole join when no language holds a
    NUL byte ("eng+fra" for eng, fra); and a null pointer, that is no
    language at all, when [Languages] is empty. *)
Theorem C3_init_joins_languages :
  forall (E : Engine) (fs : os.FileSystem) (c : Client) (api : TessBaseAPI),
    (exists id, calls (init fs c api) = [CallInit None id (charConfig fs c)]
       /\ match Languages c with
          | [] => id = None
          | first :: rest =>
              id = Some (C_CString (plus_joined first rest))
              /\ (Forall (fun l => NUL_free l = true) (Languages c) ->
                  id = Some (plus_joined first rest))
          end)
    /\ calls (init fs (SetLanguage c ["eng"; "fra"]) api)
       = [CallInit None (Some "eng+fra") (charConfig fs c)]
    /\ calls (init fs (SetLanguage c []) api)
       = [CallInit None None (charConfig fs c)].
Proof.
  intros E fs c api. split; [|split].
  - exists (charLangs c). split; [apply init_calls|].
    rewrite charLangs_spec. destruct (Languages c) as [|first rest]; [reflexivity|].
    split; [reflexivity|]. intros Hfree. apply Forall_cons in Hfree as [Hfirst Hrest].
    now rewrite C_CString_id by now apply plus_joined_NUL_free.
  - now rewrite init_calls.
  - now rewrite init_calls.
Qed.

(** C3 as the spec states it fails: for the languages "e NUL x" and "fra"
    the engine is handed "e", not the join of the two. *)
Lemma C3_NUL_cuts_the_identifier :
  let langs := [String "e" (String NUL "x"); "fra"] in
  calls (init (E := Sim.engine) Sim.no_file (SetLanguage Sim.fresh langs) Sim.blank)
  = [CallInit None (Some "e") None]
  /\ strings.Join langs "+" = String "e" (String NUL "x+fra")
  /\ strings.Join langs "+" <> "e".
Proof. split; [reflexivity|]. split; [reflexivity | discriminate]. Qed.

(** C4: [SetConfigFile] returns an error when [os.Stat] fails for the path
    and when the path is a directory, and then the Client is unchanged;
    otherwise it returns nil and the Client differs from the old one in
    [ConfigFilePath] only, which is the given path. *)
Theorem C4_SetConfigFile_result :
  forall (fs : os.FileSystem) (c : Client) (fpath : string),
    let c' := fst (SetConfigFile fs c fpath) in
    let e := snd (SetConfigFile fs c fpath) in
    (os.Stat fs fpath = None -> e = Some (StatError fpath) /\ c' = c)
    /\ (os.Stat fs fpath = Some {| os.IsDir := true |} ->
        e = Some ConfigIsDirectory /\ c' = c)
    /\ (os.Stat fs fpath = Some {| os.IsDir := false |} ->
        e = None /\ c' = set_ConfigFilePath c fpath /\ ConfigFilePath c' = fpath)
    /\ (e <> None -> ConfigFilePath c' = ConfigFilePath c)
    /\ (e = None <-> os.Stat fs fpath = Some {| os.IsDir := false |}).
Proof.
  intros fs c fpath. unfold SetConfigFile.
  destruct (os.Stat fs fpath) as [[d]|]; [destruct d|]; cbn;
    repeat split; intros; try congruence.
Qed.

Lemma C4_SetConfigFile_result_witness :
  snd (SetConfigFile (Sim.one_dir "/etc") Sim.fresh "/etc") = Some ConfigIsDirectory
  /\ fst (SetConfigFile (Sim.one_dir "/etc") Sim.fresh "/etc") = Sim.fresh.
Proof.
  apply (C4_SetConfigFile_result (Sim.one_dir "/etc") Sim.fresh "/etc").
  reflexivity.
Defined.

(** C5: when [os.Stat] fails for the stored path at the time of [init],
    [init] calls [C.Init] with a null configuration pointer, and returns an
    error only for a code of the engine other than 0: nil exactly when that
    code is 0. *)
Theorem C5_init_drops_missing_config :
  forall (E : Engine) (fs : os.FileSystem) (c : Client) (api : TessBaseAPI),
    os.Stat fs (ConfigFilePath c) = None ->
    calls (init fs c api) = [CallInit None (charLangs c) None]
    /\ (result (init fs c api) = None <->
        snd (C_Init api None (charLangs c) None) = 0)
    /\ (forall e, result (init fs c api) = Some e ->
        e = InitFailed (snd (C_Init api None (charLangs c) None))).
Proof.
  intros E fs c api Hstat.
  assert (Hc : charConfig fs c = None) by (unfold charConfig; now rewrite Hstat).
  split; [|split].
  - now rewrite init_calls, Hc.
  - rewrite init_ok. now rewrite Hc.
  - intros e He. apply init_error in He as (code & -> & _ & Hcode).
    rewrite Hc in Hcode. now rewrite Hcode.
Qed.

Lemma C5_init_drops_missing_config_witness :
  let c := fst (SetConfigFile (Sim.one_file "/etc/ocr.conf") Sim.fresh "/etc/ocr.conf") in
  ConfigFilePath c = "/etc/ocr.conf"
  /\ os.Stat Sim.no_file (ConfigFilePath c) = None
  /\ calls (init (E := Sim.engine) Sim.no_file c Sim.blank) = [CallInit None None None]
  /\ result (init (E := Sim.engine) Sim.no_file c Sim.blank) = None.
Proof.
  split; [reflexivity|]. split; [reflexivity|].
  destruct (C5_init_drops_missing_config Sim.engine Sim.no_file
              (fst (SetConfigFile (Sim.one_file "/etc/ocr.conf") Sim.fresh "/etc/ocr.conf"))
              Sim.blank) as (Hcalls & Hok & _); [reflexivity|].
  split; [exact Hcalls | apply Hok; reflexivity].
Defined.

(** C2, as the code has it: the path [init] hands to the engine is the
    stored one and [os.Stat] finds it at that moment; it was not a
    directory when [SetConfigFile] accepted it, and it is not one at the
    time of [init] when [os.Stat] gives for it then what it gave at the
    time of [SetConfigFile]. *)
Theorem C2_forwarded_config_exists :
  forall (E : Engine) (fs0 fs : os.FileSystem) (c0 c : Client) (fpath : string)
         (api : TessBaseAPI) (d l : option string) (p : string),
    SetConfigFile fs0 c0 fpath = (c, None) ->
    In (CallInit d l (Some p)) (calls (init fs c api)) ->
    p = fpath
    /\ (exists info, os.Stat fs p = Some info)
    /\ os.Stat fs0 p = Some {| os.IsDir := false |}
    /\ (os.Stat fs p = os.Stat fs0 p -> os.Stat fs p = Some {| os.IsDir := false |}).
Proof.
  intros E fs0 fs c0 c fpath api d l p Hset Hin.
  apply SetConfigFile_ok in Hset as [-> Hfile].
  rewrite init_calls in Hin. destruct Hin as [Hcall | []].
  injection Hcall as _ _ Hcfg.
  apply charConfig_Some in Hcfg as [-> Hex]. cbn [set_ConfigFilePath ConfigFilePath] in *.
  repeat split; [exact Hex | exact Hfile | intros ->; exact Hfile].
Qed.

Lemma C2_forwarded_config_exists_witness :
  let fs := Sim.one_file "/etc/ocr.conf" in
  let c := set_ConfigFilePath Sim.fresh "/etc/ocr.conf" in
  SetConfigFile fs Sim.fresh "/etc/ocr.conf" = (c, None)
  /\ In (CallInit None None (Some "/etc/ocr.conf"))
        (calls (init (E := Sim.engine) fs c Sim.blank))
  /\ os.Stat fs "/etc/ocr.conf" = Some {| os.IsDir := false |}.
Proof.
  split; [reflexivity|]. split; [left; reflexivity|].
  apply (C2_forwarded_config_exists Sim.engine
           (Sim.one_file "/etc/ocr.conf") (Sim.one_file "/etc/ocr.conf")
           Sim.fresh (set_ConfigFilePath Sim.fresh "/etc/ocr.conf") "/etc/ocr.conf"
           Sim.blank None None "/etc/ocr.conf").
  - reflexivity.
  - left. reflexivity.
  - reflexivity.
Defined.

(** C2 as the spec states it fails: a path that was a regular file when
    [SetConfigFile] accepted it and is a directory at the time of [init]
    is handed to the engine all the same. *)
Lemma C2_directory_is_forwarded :
  let c := fst (SetConfigFile (Sim.one_file "/etc/ocr.conf") Sim.fresh "/etc/ocr.conf") in
  snd (SetConfigFile (Sim.one_file "/etc/ocr.conf") Sim.fresh "/etc/ocr.conf") = None
  /\ calls (init (E := Sim.engine) (Sim.one_dir "/etc/ocr.conf") c Sim.blank)
     = [CallInit None None (Some "/etc/ocr.conf")]
  /\ os.Stat (Sim.one_dir "/etc/ocr.conf") "/etc/ocr.conf" = Some {| os.IsDir := true |}.
Proof. repeat split. Qed.

(** C10: [Close] returns a nil error, whatever the Client and whatever the
    state of the engine object; it makes the one call [C.Free]. *)
Theorem C10_Close_returns_nil :
  forall (E : Engine) (c : Client) (api : TessBaseAPI),
    result (Close c api) = None /\ calls (Close c api) = [CallFree].
Proof. intros E c api. split; reflexivity. Qed.

Lemma insert_twice_entries (m : gmap string string) (k v1 v2 : string) :
  exists rest, map_to_list (<[k := v2]> (<[k := v1]> m)) ≡ₚ (k, v2) :: rest
               /\ forall k' v', (k', v') ∈ rest -> k' <> k /\ m !! k' = Some v'.
Proof.
  exists (map_to_list (delete k m)). split.
  - rewrite insert_insert_eq, <- insert_delete_eq.
    apply map_to_list_insert, lookup_delete_eq.
  - intros k' v' Hin. apply elem_of_map_to_list in Hin.
    apply lookup_delete_Some in Hin as [Hne Hm]. split; [congruence | exact Hm].
Qed.

(** C7: on a Client whose map is not nil (as [NewClient] makes it),
    [SetVariable(k, v1)] then [SetVariable(k, v2)] both return, and the map
    then binds [k] to [v2], holds no other entry for [k], and binds every
    other key as before; no other field of the Client changes. *)
Theorem C7_SetVariable_last_write_wins :
  forall (c : Client) (k v1 v2 : string) (m : gmap string string),
    Variables c = Some m ->
    exists c1 c2 m2,
      SetVariable c k v1 = Returns c1
      /\ SetVariable c1 k v2 = Returns c2
      /\ c2 = set_Variables c (Some m2)
      /\ m2 !! k = Some v2
      /\ (forall k', k' <> k -> m2 !! k' = m !! k')
      /\ exists rest, map_to_list m2 ≡ₚ (k, v2) :: rest
                      /\ forall k' v', (k', v') ∈ rest -> k' <> k /\ m !! k' = Some v'.
Proof.
  intros c k v1 v2 m Hm.
  exists (set_Variables c (Some (<[k := v1]> m))),
         (set_Variables c (Some (<[k := v2]> (<[k := v1]> m)))),
         (<[k := v2]> (<[k := v1]> m)).
  unfold SetVariable. rewrite Hm. cbn [set_Variables Variables].
  repeat split.
  - apply lookup_insert_eq.
  - intros k' Hne. rewrite !lookup_insert_ne by congruence. reflexivity.
  - apply insert_twice_entries.
Qed.

Lemma C7_SetVariable_last_write_wins_witness :
  Variables Sim.fresh = Some ∅
  /\ exists c1 c2 m2,
      SetVariable Sim.fresh "k" "v1" = Returns c1
      /\ SetVariable c1 "k" "v2" = Returns c2
      /\ c2 = set_Variables Sim.fresh (Some m2)
      /\ m2 !! "k" = Some "v2"
      /\ (forall k', k' <> "k" -> m2 !! k' = (∅ : gmap string string) !! k')
      /\ exists rest, map_to_list m2 ≡ₚ ("k", "v2") :: rest
                      /\ forall k' v', (k', v') ∈ rest ->
                                       k' <> "k" /\ (∅ : gmap string string) !! k' = Some v'.
Proof.
  split; [reflexivity|].
  apply (C7_SetVariable_last_write_wins Sim.fresh "k" "v1" "v2" ∅).
  reflexivity.
Defined.

(** ** What [prepare], [Text] and [HTML] do *)

Section RunFacts.

Context {E : Engine}.

Lemma bind_all_ok (l : list (string * string)) (api : TessBaseAPI) :
  result (bind_all l api) = None -> calls (bind_all l api) = binding_calls l.
Proof.
  revert api. induction l as [|[k v] l IH]; intros api; [reflexivity|].
  cbn [bind_all]. unfold bind, bind_, SetVariable_, result, calls in *.
  destruct (C_SetVariable api (C_CString k) (C_CString v)) as [api1 ok].
  destruct ok; cbn [negb].
  - specialize (IH api1). destruct (bind_all l api1) as [[r a] t]. cbn [fst snd] in *.
    intros Hr. now rewrite (IH Hr).
  - cbn. discriminate.
Qed.

(** A failing loop stops at the entry the engine rejects: the entries
    before it were accepted, its call is the last one, and the error names
    its key and value. *)
Lemma bind_all_failed (l : list (string * string)) (api : TessBaseAPI) (e : error) :
  result (bind_all l api) = Some e ->
  exists done k v rest,
    l = (done ++ (k, v) :: rest)%list
    /\ e = SetVariableFailed k v
    /\ result (bind_all done api) = None
    /\ snd (C_SetVariable (handle (bind_all done api)) (C_CString k) (C_CString v))
       = false
    /\ calls (bind_all l api)
       = (binding_calls done ++ [CallSetVariable (C_CString k) (C_CString v)])%list.
Proof.
  revert api. induction l as [|[k v] l IH]; intros api; [discriminate|].
  cbn [bind_all]. unfold bind, bind_, SetVariable_.
  destruct (C_SetVariable api (C_CString k) (C_CString v)) as [api1 ok] eqn:Hset.
  destruct ok; cbn [negb].
  - specialize (IH api1). unfold result, calls, handle in *.
    destruct (bind_all l api1) as [[r a] t] eqn:Hrun. cbn [fst snd] in *.
    intros Hr. destruct (IH Hr) as (done & k' & v' & rest & -> & -> & Hok & Hrej & Hcalls).
    exists ((k, v) :: done), k', v', rest.
    cbn [bind_all app binding_calls map fst snd]. unfold bind, bind_, SetVariable_.
    rewrite Hset. cbn [negb].
    destruct (bind_all done api1) as [[r' a'] t'] eqn:Hdone. cbn [fst snd] in *.
    repeat split; [exact Hok | exact Hrej | now rewrite Hcalls].
  - unfold result, calls, handle. cbn. intros [= <-].
    exists [], k, v, l. cbn. rewrite Hset. repeat split.
Qed.

Lemma prepare_run (iter : gmap string string -> list (string * string))
    (c : Client) (api : TessBaseAPI) :
  let bound := bind_all (range iter (Variables c)) (C_SetImage api (C_CString (ImagePath c))) in
  prepare iter c api =
  match result bound with
  | Some e => (Some e, handle bound, CallSetImage (C_CString (ImagePath c)) :: calls bound)
  | None =>
      (None,
       match PageSegMode c with
       | Some mode => C_SetPageSegMode (handle bound) (C_int mode)
       | None => handle bound
       end,
       CallSetImage (C_CString (ImagePath c)) :: (calls bound ++ mode_calls c)%list)
  end.
Proof.
  unfold prepare, bind, SetImage_, SetPageSegMode_, ret, result, handle, calls, mode_calls.
  destruct (bind_all (range iter (Variables c)) (C_SetImage api (C_CString (ImagePath c))))
    as [[r a] t].
  cbn [fst snd]. destruct r as [e|].
  - cbn. now rewrite app_nil_r.
  - destruct (PageSegMode c); cbn; reflexivity.
Qed.

Lemma Text_init_failed fs iter (c : Client) (api : TessBaseAPI) (e : error) :
  result (init fs c api) = Some e ->
  Text fs iter c api = (("", Some e), handle (init fs c api), calls (init fs c api)).
Proof.
  unfold Text, bind, result, handle, calls.
  destruct (init fs c api) as [[r a] t]. cbn [fst snd]. intros ->.
  cbn. now rewrite app_nil_r.
Qed.

Lemma Text_prepare_failed fs iter (c : Client) (api : TessBaseAPI) (e : error) :
  result (init fs c api) = None ->
  result (prepare iter c (handle (init fs c api))) = Some e ->
  Text fs iter c api =
  (("", Some e), handle (prepare iter c (handle (init fs c api))),
   (calls (init fs c api) ++ calls (prepare iter c (handle (init fs c api))))%list).
Proof.
  unfold Text, bind, result, handle, calls.
  destruct (init fs c api) as [[r a] t]. cbn [fst snd]. intros ->.
  destruct (prepare iter c a) as [[r' a'] t']. cbn [fst snd]. intros ->.
  cbn. now rewrite app_nil_r.
Qed.

Lemma Text_extracts fs iter (c : Client) (api : TessBaseAPI) :
  result (init fs c api) = None ->
  result (prepare iter c (handle (init fs c api))) = None ->
  let prepared := handle (prepare iter c (handle (init fs c api))) in
  let raw := snd (C_UTF8Text prepared) in
  Text fs iter c api =
  ((if Trim c then strings.Trim raw nl else raw, None),
   fst (C_UTF8Text prepared),
   (calls (init fs c api) ++ calls (prepare iter c (handle (init fs c api)))
      ++ [CallUTF8Text])%list).
Proof.
  unfold Text, bind, UTF8Text, result, handle, calls.
  destruct (init fs c api) as [[r a] t]. cbn [fst snd]. intros ->.
  destruct (prepare iter c a) as [[r' a'] t']. cbn [fst snd]. intros ->.
  destruct (C_UTF8Text a') as [a'' raw]. cbn. reflexivity.
Qed.

Lemma HTML_init_failed fs iter (c : Client) (api : TessBaseAPI) (e : error) :
  result (init fs c api) = Some e ->
  HTML fs iter c api = (("", Some e), handle (init fs c api), calls (init fs c api)).
Proof.
  unfold HTML, bind, result, handle, calls.
  destruct (init fs c api) as [[r a] t]. cbn [fst snd]. intros ->.
  cbn. now rewrite app_nil_r.
Qed.

Lemma HTML_prepare_failed fs iter (c : Client) (api : TessBaseAPI) (e : error) :
  result (init fs c api) = None ->
  result (prepare iter c (handle (init fs c api))) = Some e ->
  HTML fs iter c api =
  (("", Some e), handle (prepare iter c (handle (init fs c api))),
   (calls (init fs c api) ++ calls (prepare iter c (handle (init fs c api))))%list).
Proof.
  unfold HTML, bind, result, handle, calls.
  destruct (init fs c api) as [[r a] t]. cbn [fst snd]. intros ->.
  destruct (prepare iter c a) as [[r' a'] t']. cbn [fst snd]. intros ->.
  cbn. now rewrite app_nil_r.
Qed.

Lemma HTML_extracts fs iter (c : Client) (api : TessBaseAPI) :
  result (init fs c api) = None ->
  result (prepare iter c (handle (init fs c api))) = None ->
  let prepared := handle (prepare iter c (handle (init fs c api))) in
  HTML fs iter c api =
  ((snd (C_HOCRText prepared), None),
   fst (C_HOCRText prepared),
   (calls (init fs c api) ++ calls (prepare iter c (handle (init fs c api)))
      ++ [CallHOCRText])%list).
Proof.
  unfold HTML, bind, HOCRText, result, handle, calls.
  destruct (init fs c api) as [[r a] t]. cbn [fst snd]. intros ->.
  destruct (prepare iter c a) as [[r' a'] t']. cbn [fst snd]. intros ->.
  destruct (C_HOCRText a') as [a'' raw]. cbn. reflexivity.
Qed.

Lemma Text_starts_with_Init fs iter (c : Client) (api : TessBaseAPI) :
  exists rest, calls (Text fs iter c api)
               = CallInit None (charLangs c) (charConfig fs c) :: rest.
Proof.
  destruct (result (init fs c api)) as [e|] eqn:Hinit.
  - rewrite (Text_init_failed fs iter c api e Hinit). unfold calls at 1. cbn [snd].
    rewrite init_calls. eauto.
  - destruct (result (prepare iter c (handle (init fs c api)))) as [e|] eqn:Hprep.
    + rewrite (Text_prepare_failed fs iter c api e Hinit Hprep). unfold calls at 1.
      cbn [snd]. rewrite init_calls. cbn [app]. eauto.
    + rewrite (Text_extracts fs iter c api Hinit Hprep). unfold calls at 1.
      cbn [snd]. rewrite init_calls. cbn [app]. eauto.
Qed.

Lemma HTML_starts_with_Init fs iter (c : Client) (api : TessBaseAPI) :
  exists rest, calls (HTML fs iter c api)
               = CallInit None (charLangs c) (charConfig fs c) :: rest.
Proof.
  destruct (result (init fs c api)) as [e|] eqn:Hinit.
  - rewrite (HTML_init_failed fs iter c api e Hinit). unfold calls at 1. cbn [snd].
    rewrite init_calls. eauto.
  - destruct (result (prepare iter c (handle (init fs c api)))) as [e|] eqn:Hprep.
    + rewrite (HTML_prepare_failed fs iter c api e Hinit Hprep). unfold calls at 1.
      cbn [snd]. rewrite init_calls. cbn [app]. eauto.
    + rewrite (HTML_extracts fs iter c api Hinit Hprep). unfold calls at 1.
      cbn [snd]. rewrite init_calls. cbn [app]. eauto.
Qed.

End RunFacts.

(** C6: with [Trim] set, what [Text] returns is the text of the engine
    without the newlines at its two ends, and nothing else is removed: the
    text of the engine is some newlines, the returned string, some
    newlines, and the returned string neither starts nor ends with a
    newline.  A text with no newline at either end is returned as it is. *)
Theorem C6_Text_trims_newlines_only :
  forall (E : Engine) (fs : os.FileSystem)
         (iter : gmap string string -> list (string * string))
         (c : Client) (api : TessBaseAPI) (raw : string),
    Trim c = true ->
    result (init fs c api) = None ->
    result (prepare iter c (handle (init fs c api))) = None ->
    snd (C_UTF8Text (handle (prepare iter c (handle (init fs c api))))) = raw ->
    let out := fst (result (Text fs iter c api)) in
    snd (result (Text fs iter c api)) = None
    /\ out = strings.Trim raw nl
    /\ (exists a b, raw = newlines a +:+ out +:+ newlines b)
    /\ first_byte out <> Some newline
    /\ last_byte out <> Some newline
    /\ (first_byte raw <> Some newline -> last_byte raw <> Some newline -> out = raw)
    /\ (raw = nl +:+ "Hello World" +:+ nl -> out = "Hello World")
    /\ (raw = " Hello World " -> out = " Hello World ").
Proof.
  intros E fs iter c api raw Htrim Hinit Hprep Hraw out. subst out.
  rewrite (Text_extracts fs iter c api Hinit Hprep). unfold result. cbn [fst snd].
  rewrite Htrim, Hraw.
  destruct (Trim_nl raw) as (a & b & Hsplit & Hfirst & Hlast).
  repeat split; try assumption.
  - exists a, b. exact Hsplit.
  - apply Trim_id.
  - intros ->. reflexivity.
  - intros ->. reflexivity.
Qed.

Lemma C6_Text_trims_newlines_only_witness :
  let c := SetImage Sim.fresh "hello.png" in
  let started := init (E := Sim.engine) Sim.no_file c Sim.blank in
  let prepared := prepare (E := Sim.engine) map_to_list c (handle started) in
  Trim c = true
  /\ result started = None
  /\ result prepared = None
  /\ snd (C_UTF8Text (handle prepared)) = nl +:+ "Hello World" +:+ nl
  /\ fst (result (Text (E := Sim.engine) Sim.no_file map_to_list c Sim.blank))
     = "Hello World".
Proof.
  split; [reflexivity|]. split; [reflexivity|]. split; [reflexivity|].
  split; [reflexivity|].
  apply (C6_Text_trims_newlines_only Sim.engine Sim.no_file map_to_list
           (SetImage Sim.fresh "hello.png") Sim.blank (nl +:+ "Hello World" +:+ nl));
    reflexivity.
Defined.

Example sim_text_spaces :
  result (Text (E := Sim.engine) Sim.no_file map_to_list
            (SetImage Sim.fresh "spaces.png") Sim.blank)
  = (" Hello World ", None).
Proof. vm_compute. reflexivity. Qed.

(** C1, as the code has it: [Close] frees the engine object, returns nil
    and leaves the Client as it was; no flag is kept.  A setter called
    after [Close] makes no engine call and returns what it returns before
    [Close]; [Text] and [HTML] called after [Close] start, as ever, with
    [C.Init], now on the freed object. *)
Theorem C1_methods_after_Close :
  forall (E : Engine) (fs : os.FileSystem)
         (iter : gmap string string -> list (string * string))
         (m : Method) (c : Client) (api : TessBaseAPI),
    let closed := invoke fs iter MClose c api in
    result closed = Returns {| self := c; out := ""; err := None |}
    /\ calls closed = [CallFree]
    /\ handle closed = C_Free api
    /\ (is_setter m = true ->
        invoke fs iter m c (handle closed)
        = (result (invoke fs iter m c api), handle closed, []))
    /\ (m = MText \/ m = MHTML ->
        exists rest, calls (invoke fs iter m c (handle closed))
                     = CallInit None (charLangs c) (charConfig fs c) :: rest).
Proof.
  intros E fs iter m c api closed. subst closed.
  split; [reflexivity|]. split; [reflexivity|]. split; [reflexivity|]. split.
  - destruct m; cbn [is_setter]; try discriminate; intros _; cbn [invoke];
      try reflexivity.
    destruct (SetConfigFile fs c fpath) as [c' e]. reflexivity.
  - change (handle (invoke fs iter MClose c api)) with (C_Free api).
    intros [-> | ->]; cbn [invoke].
    + destruct (Text_starts_with_Init fs iter c (C_Free api)) as [rest Hrest].
      exists rest. rewrite <- Hrest. unfold bind, ret, calls.
      destruct (Text fs iter c (C_Free api)) as [[r a] t]. cbn. apply app_nil_r.
    + destruct (HTML_starts_with_Init fs iter c (C_Free api)) as [rest Hrest].
      exists rest. rewrite <- Hrest. unfold bind, ret, calls.
      destruct (HTML fs iter c (C_Free api)) as [[r a] t]. cbn. apply app_nil_r.
Qed.

(** C1 as the spec states it fails: after [Close], [SetConfigFile] on an
    existing regular file stores the path and returns a nil error. *)
Lemma C1_SetConfigFile_after_Close :
  let fs := Sim.one_file "/etc/ocr.conf" in
  let closed := invoke (E := Sim.engine) fs map_to_list MClose Sim.fresh Sim.blank in
  result closed = Returns {| self := Sim.fresh; out := ""; err := None |}
  /\ result (invoke (E := Sim.engine) fs map_to_list (MSetConfigFile "/etc/ocr.conf")
               Sim.fresh (handle closed))
     = Returns {| self := set_ConfigFilePath Sim.fresh "/etc/ocr.conf";
                  out := ""; err := None |}.
Proof. split; reflexivity. Qed.

(** ** Errors of [init] and [prepare] in [Text] and [HTML] *)

Section Abort.

Context {E : Engine}.

Lemma In_binding_calls (x : CCall) (l : list (string * string)) :
  In x (binding_calls l) -> exists k v, x = CallSetVariable k v.
Proof.
  unfold binding_calls. rewrite in_map_iff. intros ([k v] & <- & _). cbn [fst snd]. eauto.
Qed.

Lemma prepare_failed iter (c : Client) (api : TessBaseAPI) (e : error) :
  result (prepare iter c api) = Some e ->
  exists done k v rest,
    range iter (Variables c) = (done ++ (k, v) :: rest)%list
    /\ e = SetVariableFailed k v
    /\ result (bind_all done (C_SetImage api (C_CString (ImagePath c)))) = None
    /\ snd (C_SetVariable
              (handle (bind_all done (C_SetImage api (C_CString (ImagePath c)))))
              (C_CString k) (C_CString v))
       = false
    /\ calls (prepare iter c api)
       = (CallSetImage (C_CString (ImagePath c))
          :: binding_calls done ++ [CallSetVariable (C_CString k) (C_CString v)])%list.
Proof.
  pose proof (prepare_run iter c api) as Hrun. cbv zeta in Hrun.
  destruct (result (bind_all (range iter (Variables c)) (C_SetImage api (C_CString (ImagePath c)))))
    as [e'|] eqn:Hb; rewrite Hrun; unfold result at 1, calls at 1; cbn [fst snd];
    [|discriminate].
  intros [= <-].
  destruct (bind_all_failed _ _ _ Hb) as (done & k & v & rest & Hl & -> & Hacc & Hrej & Hc).
  exists done, k, v, rest. rewrite Hc. auto.
Qed.

Lemma prepare_ok iter (c : Client) (api : TessBaseAPI) :
  result (prepare iter c api) = None ->
  calls (prepare iter c api)
  = (CallSetImage (C_CString (ImagePath c))
     :: binding_calls (range iter (Variables c)) ++ mode_calls c)%list.
Proof.
  pose proof (prepare_run iter c api) as Hrun. cbv zeta in Hrun.
  destruct (result (bind_all (range iter (Variables c)) (C_SetImage api (C_CString (ImagePath c)))))
    as [e'|] eqn:Hb; rewrite Hrun; unfold result at 1, calls at 1; cbn [fst snd];
    [discriminate|].
  intros _. now rewrite (bind_all_ok _ _ Hb).
Qed.

Lemma range_entry iter (m0 : option (gmap string string))
    (done rest : list (string * string)) (k v : string) :
  map_order iter ->
  range iter m0 = (done ++ (k, v) :: rest)%list ->
  exists m, m0 = Some m /\ m !! k = Some v /\ iter m = (done ++ (k, v) :: rest)%list.
Proof.
  intros Hord Hr. destruct m0 as [m|]; cbn [range] in Hr.
  - exists m. repeat split; [|exact Hr].
    apply elem_of_map_to_list. rewrite <- (Hord m), Hr.
    apply list_elem_of_In, in_or_app. right. now left.
  - now destruct done.
Qed.

(** Both [Text] and [HTML] have the three ways out below; an error comes
    from the first two. *)
Lemma abort_cases fs iter (c : Client) (api : TessBaseAPI)
    (r : (string * option error) * TessBaseAPI * list CCall) :
  map_order iter ->
  (forall e, result (init fs c api) = Some e ->
             r = (("", Some e), handle (init fs c api), calls (init fs c api))) ->
  (forall e, result (init fs c api) = None ->
             result (prepare iter c (handle (init fs c api))) = Some e ->
             r = (("", Some e), handle (prepare iter c (handle (init fs c api))),
                  (calls (init fs c api)
                   ++ calls (prepare iter c (handle (init fs c api))))%list)) ->
  (result (init fs c api) = None ->
   result (prepare iter c (handle (init fs c api))) = None ->
   snd (result r) = None) ->
  forall e, snd (result r) = Some e -> aborted fs iter c api r e.
Proof.
  intros Hord Hfail1 Hfail2 Hgood e He. unfold aborted.
  destruct (result (init fs c api)) as [e1|] eqn:Hinit.
  - pose proof (Hfail1 e1 eq_refl) as ->. rewrite result_run, calls_run, handle_run in *.
    cbn [fst snd] in *. injection He as ->. rewrite init_calls.
    apply init_error in Hinit as (code & -> & Hne & Hcode).
    split; [reflexivity|]. split; [intros [? | []]; discriminate|].
    split; [intros [? | []]; discriminate|].
    left. exists code. rewrite init_run, handle_run. auto.
  - destruct (result (prepare iter c (handle (init fs c api)))) as [e2|] eqn:Hprep.
    + pose proof (Hfail2 e2 eq_refl eq_refl) as ->. rewrite result_run, calls_run in *.
      cbn [fst snd] in *. injection He as ->. rewrite init_calls.
      apply init_ok in Hinit.
      destruct (prepare_failed _ _ _ _ Hprep)
        as (done & k & v & rest & Hl & -> & Hacc & Hrej & Hc).
      destruct (range_entry _ _ _ _ _ _ Hord Hl) as (m & Hm & Hkv & Hiter).
      rewrite Hc. cbn [app].
      assert (Hnone : forall x, (forall k v, x <> CallSetVariable k v) ->
                (forall d l g, x <> CallInit d l g) -> (forall p, x <> CallSetImage p) ->
                ~ In x (CallInit None (charLangs c) (charConfig fs c)
                        :: CallSetImage (C_CString (ImagePath c))
                        :: binding_calls done
                        ++ [CallSetVariable (C_CString k) (C_CString v)])%list).
      { intros x Hv Hi Hs [<- | [<- | Hx]];
          [eapply Hi; reflexivity | eapply Hs; reflexivity |].
        apply in_app_or in Hx as [Hx | [<- | []]].
        - apply In_binding_calls in Hx as (k' & v' & ->). eapply Hv; reflexivity.
        - eapply Hv; reflexivity. }
      split; [reflexivity|]. split; [apply Hnone; discriminate|].
      split; [apply Hnone; discriminate|].
      right. exists done, k, v, rest, m.
      rewrite init_run, handle_run in Hrej, Hacc.
      repeat split; assumption.
    + rewrite (Hgood eq_refl eq_refl) in He. discriminate.
Qed.

(** The loop stops with an error at the first entry the engine rejects. *)
Lemma bind_all_rejected (done rest : list (string * string)) (k v : string)
    (api accepted : TessBaseAPI) :
  bound done api = Some accepted ->
  snd (C_SetVariable accepted (C_CString k) (C_CString v)) = false ->
  bind_all (done ++ (k, v) :: rest) api
  = (Some (SetVariableFailed k v),
     fst (C_SetVariable accepted (C_CString k) (C_CString v)),
     (binding_calls done ++ [CallSetVariable (C_CString k) (C_CString v)])%list).
Proof.
  revert api. induction done as [|[k0 v0] done IH]; intros api Hacc Hrej.
  - injection Hacc as ->. cbn [app bind_all binding_calls map].
    unfold bind, bind_, SetVariable_.
    destruct (C_SetVariable accepted (C_CString k) (C_CString v)) as [a ok].
    cbn [snd] in Hrej. subst ok. reflexivity.
  - cbn [bound] in Hacc. cbn [app bind_all binding_calls map fst snd].
    unfold bind, bind_, SetVariable_.
    destruct (C_SetVariable api (C_CString k0) (C_CString v0)) as [a ok].
    cbn [fst snd] in Hacc. destruct ok; [|discriminate]. cbn [negb].
    fold (binding_calls done). now rewrite (IH a Hacc Hrej).
Qed.

End Abort.

Lemma prepare_starts_with_SetImage {E : Engine} iter (c : Client) (api : TessBaseAPI) :
  exists rest, calls (prepare iter c api) = CallSetImage (C_CString (ImagePath c)) :: rest.
Proof.
  pose proof (prepare_run iter c api) as Hrun. cbv zeta in Hrun. rewrite Hrun.
  destruct (result (bind_all (range iter (Variables c)) (C_SetImage api (C_CString (ImagePath c)))));
    rewrite calls_run; eauto.
Qed.

(** C8: [Text] and [HTML] both call [C.Init] first and, when it gave 0,
    set the image, the first call of [prepare], second.  An error of
    [init] is returned at once, with the empty string, after the calls of
    [init] only; so is an error of [prepare], after the calls of [init]
    and [prepare] only.  In terms of the engine: a code of [C.Init] other
    than 0 is returned as [InitFailed] after that one call; an entry of
    the map rejected after the entries before it were accepted is
    returned as [SetVariableFailed] with its Go key and value, its call
    the last one.  Every error returned is one of these two, and in
    neither case is the engine asked for text or hOCR. *)
Theorem C8_errors_abort_before_extraction :
  forall (E : Engine) (fs : os.FileSystem)
         (iter : gmap string string -> list (string * string))
         (c : Client) (api : TessBaseAPI),
    map_order iter ->
    let started := C_Init api None (charLangs c) (charConfig fs c) in
    let ready := C_SetImage (fst started) (C_CString (ImagePath c)) in
    (forall e, result (init fs c api) = Some e ->
       Text fs iter c api = (("", Some e), handle (init fs c api), calls (init fs c api))
       /\ HTML fs iter c api = Text fs iter c api)
    /\ (forall e, result (init fs c api) = None ->
         result (prepare iter c (handle (init fs c api))) = Some e ->
         Text fs iter c api
         = (("", Some e), handle (prepare iter c (handle (init fs c api))),
            (calls (init fs c api)
             ++ calls (prepare iter c (handle (init fs c api))))%list)
         /\ HTML fs iter c api = Text fs iter c api)
    /\ (snd started <> 0 ->
        Text fs iter c api
        = (("", Some (InitFailed (snd started))), fst started,
           [CallInit None (charLangs c) (charConfig fs c)])
        /\ HTML fs iter c api = Text fs iter c api)
    /\ (forall done k v rest accepted,
         snd started = 0 ->
         range iter (Variables c) = (done ++ (k, v) :: rest)%list ->
         bound done ready = Some accepted ->
         snd (C_SetVariable accepted (C_CString k) (C_CString v)) = false ->
         Text fs iter c api
         = (("", Some (SetVariableFailed k v)),
            fst (C_SetVariable accepted (C_CString k) (C_CString v)),
            (CallInit None (charLangs c) (charConfig fs c)
             :: CallSetImage (C_CString (ImagePath c))
             :: binding_calls done
             ++ [CallSetVariable (C_CString k) (C_CString v)])%list)
         /\ HTML fs iter c api = Text fs iter c api)
    /\ (forall e, snd (result (Text fs iter c api)) = Some e ->
                  aborted fs iter c api (Text fs iter c api) e)
    /\ (forall e, snd (result (HTML fs iter c api)) = Some e ->
                  aborted fs iter c api (HTML fs iter c api) e)
    /\ (exists rest, calls (Text fs iter c api)
                     = CallInit None (charLangs c) (charConfig fs c) :: rest)
    /\ (exists rest, calls (HTML fs iter c api)
                     = CallInit None (charLangs c) (charConfig fs c) :: rest)
    /\ (result (init fs c api) = None ->
        exists rest1 rest2,
          calls (Text fs iter c api)
          = CallInit None (charLangs c) (charConfig fs c)
            :: CallSetImage (C_CString (ImagePath c)) :: rest1
          /\ calls (HTML fs iter c api)
             = CallInit None (charLangs c) (charConfig fs c)
               :: CallSetImage (C_CString (ImagePath c)) :: rest2).
Proof.
  intros E fs iter c api Hord started ready. subst started ready.
  assert (Hphase1 : forall e, result (init fs c api) = Some e ->
            Text fs iter c api
            = (("", Some e), handle (init fs c api), calls (init fs c api))
            /\ HTML fs iter c api = Text fs iter c api).
  { intros e Hi.
    now rewrite (Text_init_failed fs iter c api e Hi), (HTML_init_failed fs iter c api e Hi). }
  assert (Hphase2 : forall e, result (init fs c api) = None ->
            result (prepare iter c (handle (init fs c api))) = Some e ->
            Text fs iter c api
            = (("", Some e), handle (prepare iter c (handle (init fs c api))),
               (calls (init fs c api)
                ++ calls (prepare iter c (handle (init fs c api))))%list)
            /\ HTML fs iter c api = Text fs iter c api).
  { intros e Hi Hp.
    now rewrite (Text_prepare_failed fs iter c api e Hi Hp),
      (HTML_prepare_failed fs iter c api e Hi Hp). }
  split; [exact Hphase1|]. split; [exact Hphase2|].
  split; [|split; [|split; [|split; [|split; [|split]]]]].
  - intros Hcode.
    assert (Hi : result (init fs c api)
                 = Some (InitFailed (snd (C_Init api None (charLangs c) (charConfig fs c))))).
    { rewrite init_run, result_run. cbv zeta.
      now destruct (Z.eqb_spec (snd (C_Init api None (charLangs c) (charConfig fs c))) 0). }
    destruct (Hphase1 _ Hi) as [HT HH]. split; [|exact HH].
    rewrite HT, init_run, handle_run, calls_run. reflexivity.
  - intros done k v rest accepted Hcode Hrange Hacc Hrej.
    assert (Hi : result (init fs c api) = None) by now apply init_ok.
    pose proof (prepare_run iter c (handle (init fs c api))) as Hrun. cbv zeta in Hrun.
    rewrite init_run, handle_run in Hrun.
    rewrite Hrange, (bind_all_rejected _ _ _ _ _ _ Hacc Hrej), result_run, handle_run,
      calls_run in Hrun.
    assert (Hp : result (prepare iter c (handle (init fs c api)))
                 = Some (SetVariableFailed k v)).
    { now rewrite init_run, handle_run, Hrun. }
    destruct (Hphase2 _ Hi Hp) as [HT HH]. split; [|exact HH].
    rewrite HT, init_calls. rewrite init_run, handle_run, Hrun. reflexivity.
  - apply abort_cases; [exact Hord | | |].
    + intros e. apply Text_init_failed.
    + intros e. apply Text_prepare_failed.
    + intros Hi Hp. now rewrite (Text_extracts fs iter c api Hi Hp).
  - apply abort_cases; [exact Hord | | |].
    + intros e. apply HTML_init_failed.
    + intros e. apply HTML_prepare_failed.
    + intros Hi Hp. now rewrite (HTML_extracts fs iter c api Hi Hp).
  - apply Text_starts_with_Init.
  - apply HTML_starts_with_Init.
  - intros Hi.
    destruct (prepare_starts_with_SetImage iter c (handle (init fs c api))) as [rest Hrest].
    destruct (result (prepare iter c (handle (init fs c api)))) as [e|] eqn:Hp.
    + rewrite (Text_prepare_failed fs iter c api e Hi Hp),
        (HTML_prepare_failed fs iter c api e Hi Hp), !calls_run, init_calls, Hrest.
      cbn [app]. eauto.
    + rewrite (Text_extracts fs iter c api Hi Hp), (HTML_extracts fs iter c api Hi Hp),
        !calls_run, init_calls, Hrest.
      cbn [app]. eauto.
Qed.

Lemma C8_errors_abort_before_extraction_witness :
  let c := set_Variables Sim.fresh (Some (<["" := "x"]> ∅)) in
  map_order map_to_list
  /\ aborted (E := Sim.engine) Sim.no_file map_to_list c Sim.blank
       (Text (E := Sim.engine) Sim.no_file map_to_list c Sim.blank) (SetVariableFailed "" "x").
Proof.
  split; [intros m; reflexivity|].
  apply (C8_errors_abort_before_extraction Sim.engine Sim.no_file map_to_list
           (set_Variables Sim.fresh (Some (<["" := "x"]> ∅))) Sim.blank).
  - intros m. reflexivity.
  - reflexivity.
Defined.

(** ** Two runs of [Text] on one Client *)

Section Repeat.

Context {E : Engine}.

Lemma bind_all_bound (l : list (string * string)) (api : TessBaseAPI) :
  match bound l api with
  | Some api' => result (bind_all l api) = None /\ handle (bind_all l api) = api'
  | None => result (bind_all l api) <> None
  end.
Proof.
  revert api. induction l as [|[k v] l IH]; intros api; [now split|].
  cbn [bound bind_all]. unfold bind, bind_, SetVariable_.
  destruct (C_SetVariable api (C_CString k) (C_CString v)) as [api1 ok]. cbn [fst snd].
  destruct ok; cbn [negb].
  - specialize (IH api1). unfold result, handle in *.
    destruct (bind_all l api1) as [[r a] t]. exact IH.
  - discriminate.
Qed.


End Repeat.

Section IndependentBindings.

Context {E : Engine}.
Hypothesis independent : independent_bindings E.

Lemma C_names_cons (k v : string) (l : list (string * string)) :
  C_names ((k, v) :: l) = C_CString k :: C_names l.
Proof. reflexivity. Qed.

Lemma C_names_In (k v : string) (l : list (string * string)) :
  In (k, v) l -> C_CString k ∈ C_names l.
Proof.
  intros Hin. unfold C_names. apply list_elem_of_fmap. exists (k, v).
  split; [reflexivity | now apply list_elem_of_In].
Qed.

(** An entry whose name is not among those bound before it is accepted
    after them exactly when it is accepted before them. *)
Lemma accepted_after (done : list (string * string)) (api : TessBaseAPI)
    (k v : string) :
  C_CString k ∉ C_names done ->
  snd (C_SetVariable (handle (bind_all done api)) (C_CString k) (C_CString v))
  = snd (C_SetVariable api (C_CString k) (C_CString v)).
Proof.
  revert api. induction done as [|[k0 v0] done IH]; intros api Hk; [reflexivity|].
  rewrite C_names_cons, not_elem_of_cons in Hk. destruct Hk as [Hne Hk].
  destruct (independent api (C_CString k0) (C_CString v0) (C_CString k) (C_CString v)
              (C_CString_NUL_free k0) (C_CString_NUL_free k) (not_eq_sym Hne))
    as [_ Hflag].
  cbn [bind_all]. unfold bind, bind_, SetVariable_, handle.
  destruct (C_SetVariable api (C_CString k0) (C_CString v0)) as [api1 ok] eqn:Hset.
  cbn [fst] in Hflag. destruct ok; cbn [negb].
  - specialize (IH api1 Hk). unfold handle in IH.
    destruct (bind_all done api1) as [[r a] t]. cbn [fst snd] in *. now rewrite IH.
  - cbn. exact Hflag.
Qed.

(** All of [l] is accepted in sequence exactly when each entry is accepted
    on its own. *)
Lemma bound_all_accepted (l : list (string * string)) (api : TessBaseAPI) :
  NoDup (C_names l) ->
  (bound l api <> None <->
   forall k v, In (k, v) l -> snd (C_SetVariable api (C_CString k) (C_CString v)) = true).
Proof.
  revert api. induction l as [|[k v] l IH]; intros api Hnd.
  - split; [intros _ k v [] | discriminate].
  - rewrite C_names_cons in Hnd. apply NoDup_cons in Hnd as [Hnotin Hnd].
    assert (Hflag : forall k' v', In (k', v') l ->
              snd (C_SetVariable (fst (C_SetVariable api (C_CString k) (C_CString v)))
                     (C_CString k') (C_CString v'))
              = snd (C_SetVariable api (C_CString k') (C_CString v'))).
    { intros k' v' Hin.
      apply independent; [apply C_CString_NUL_free | apply C_CString_NUL_free |].
      intros Heq. apply Hnotin. rewrite Heq. now apply (C_names_In k' v'). }
    cbn [bound]. destruct (snd (C_SetVariable api (C_CString k) (C_CString v))) eqn:Hok.
    + rewrite (IH _ Hnd). split.
      * intros Hall k' v' [[= <- <-] | Hin]; [exact Hok|].
        rewrite <- (Hflag k' v' Hin). now apply Hall.
      * intros Hall k' v' Hin. rewrite (Hflag k' v' Hin). apply Hall. now right.
    + split; [congruence|]. intros Hall. specialize (Hall k v (or_introl eq_refl)).
      congruence.
Qed.

(** The order of the entries does not show in what binding them all gives. *)
Lemma bound_perm (l1 l2 : list (string * string)) :
  l1 ≡ₚ l2 -> NoDup (C_names l1) -> forall api, bound l1 api = bound l2 api.
Proof.
  intros Hperm.
  induction Hperm as [|[k v] l l' Hp IH|[k1 v1] [k2 v2] l|l l' l'' Hp1 IH1 Hp2 IH2];
    intros Hnd api.
  - reflexivity.
  - cbn [bound]. rewrite C_names_cons in Hnd. apply NoDup_cons in Hnd as [_ Hnd].
    destruct (snd (C_SetVariable api (C_CString k) (C_CString v)));
      [now apply IH | reflexivity].
  - cbn [bound]. rewrite !C_names_cons in Hnd. apply NoDup_cons in Hnd as [Hnotin _].
    assert (Hne : C_CString k1 <> C_CString k2).
    { intros Heq. apply Hnotin. rewrite Heq. apply list_elem_of_here. }
    destruct (independent api (C_CString k1) (C_CString v1) (C_CString k2) (C_CString v2)
                (C_CString_NUL_free k1) (C_CString_NUL_free k2) Hne) as [Hst Hok2].
    destruct (independent api (C_CString k2) (C_CString v2) (C_CString k1) (C_CString v1)
                (C_CString_NUL_free k2) (C_CString_NUL_free k1) (not_eq_sym Hne))
      as [_ Hok1].
    rewrite Hok1, Hok2, Hst.
    destruct (snd (C_SetVariable api (C_CString k1) (C_CString v1))),
      (snd (C_SetVariable api (C_CString k2) (C_CString v2))); reflexivity.
  - rewrite IH1 by exact Hnd. apply IH2. unfold C_names in *. now rewrite <- Hp1.
Qed.

Lemma range_distinct iter (c : Client) :
  map_order iter -> distinct_C_names c -> NoDup (C_names (range iter (Variables c))).
Proof.
  unfold distinct_C_names. intros Hord Hnd.
  destruct (Variables c) as [m|]; cbn [range]; [|constructor].
  unfold C_names in *. now rewrite (Hord m).
Qed.

(** Two runs of [prepare] from one state, each with its own map order,
    succeed together, and then leave one state. *)
Lemma prepare_orders iter1 iter2 (c : Client) (api : TessBaseAPI) :
  map_order iter1 -> map_order iter2 -> distinct_C_names c ->
  (result (prepare iter1 c api) = None <-> result (prepare iter2 c api) = None)
  /\ (result (prepare iter1 c api) = None ->
      handle (prepare iter1 c api) = handle (prepare iter2 c api)).
Proof.
  intros H1 H2 Hdist.
  assert (Hperm : range iter1 (Variables c) ≡ₚ range iter2 (Variables c)).
  { destruct (Variables c) as [m|]; cbn [range]; [|reflexivity].
    now rewrite (H1 m), (H2 m). }
  pose proof (bound_perm _ _ Hperm (range_distinct iter1 c H1 Hdist)
                (C_SetImage api (C_CString (ImagePath c)))) as Hb.
  pose proof (bind_all_bound (range iter1 (Variables c))
                (C_SetImage api (C_CString (ImagePath c)))) as B1.
  pose proof (bind_all_bound (range iter2 (Variables c))
                (C_SetImage api (C_CString (ImagePath c)))) as B2.
  rewrite <- Hb in B2.
  pose proof (prepare_run iter1 c api) as R1. pose proof (prepare_run iter2 c api) as R2.
  cbv zeta in R1, R2. rewrite R1, R2.
  destruct (bound (range iter1 (Variables c)) (C_SetImage api (C_CString (ImagePath c))))
    as [api'|].
  - destruct B1 as [B1 B1'], B2 as [B2 B2']. rewrite B1, B2, B1', B2'.
    rewrite !result_run, !handle_run. now split.
  - destruct (result (bind_all (range iter1 (Variables c))
                        (C_SetImage api (C_CString (ImagePath c)))));
      [|congruence].
    destruct (result (bind_all (range iter2 (Variables c))
                        (C_SetImage api (C_CString (ImagePath c)))));
      [|congruence].
    rewrite !result_run. split; [split|]; discriminate.
Qed.


End IndependentBindings.

Lemma Sim_independent_bindings : independent_bindings Sim.engine.
Proof.
  intros a k1 v1 k2 v2 _ _ Hne. cbn [C_SetVariable Sim.engine].
  unfold Sim.sim_SetVariable.
  destruct (String.eqb k1 ""), (String.eqb k2 ""); cbn; split; try reflexivity.
  f_equal. apply insert_insert_ne. congruence.
Qed.

Lemma reverse_order : map_order (fun m => reverse (map_to_list m)).
Proof. intros m. apply reverse_Permutation. Qed.




(** * Further properties of client.go *)

(** ** [prepare]: what reaches the engine *)

Section PrepareFacts.

Context {E : Engine}.

Lemma In_binding_calls_iff (x : CCall) (l : list (string * string)) :
  In x (binding_calls l) <->
  exists k v, In (k, v) l /\ x = CallSetVariable (C_CString k) (C_CString v).
Proof.
  unfold binding_calls. rewrite in_map_iff. split.
  - intros ([k v] & <- & Hin). eauto.
  - intros (k & v & Hin & ->). exists (k, v). auto.
Qed.

(** Entries free of NUL reach the engine as they are, each in a call of
    its own. *)
Lemma NoDup_binding_calls (l : list (string * string)) :
  NoDup l ->
  (forall k v, In (k, v) l -> NUL_free k = true /\ NUL_free v = true) ->
  NoDup (binding_calls l).
Proof.
  induction 1 as [|[k v] l Hnotin Hnd IH]; intros Hfree; cbn [binding_calls map];
    constructor.
  - fold (binding_calls l). rewrite list_elem_of_In, In_binding_calls_iff.
    intros (k' & v' & Hin & Heq). cbn [fst snd] in Heq.
    destruct (Hfree k v (or_introl eq_refl)) as [Hk Hv].
    destruct (Hfree k' v' (or_intror Hin)) as [Hk' Hv'].
    rewrite !C_CString_id in Heq by assumption. injection Heq as -> ->.
    apply Hnotin, list_elem_of_In, Hin.
  - apply IH. intros k' v' Hin. apply Hfree. now right.
Qed.

Lemma mode_calls_In (c : Client) (x : CCall) :
  In x (mode_calls c) <-> exists mode, PageSegMode c = Some mode /\ x = CallSetPageSegMode (C_int mode).
Proof.
  unfold mode_calls. destruct (PageSegMode c) as [mode|]; cbn [In]; split.
  - intros [<- | []]. eauto.
  - intros (m' & [= <-] & ->). now left.
  - intros [].
  - intros (m' & Hm & _). discriminate.
Qed.

(** The calls of a [prepare] that fails hold no setting of the page
    segmentation mode. *)
Lemma prepare_failed_no_mode iter (c : Client) (api : TessBaseAPI) (e : error) (mode : Z) :
  result (prepare iter c api) = Some e ->
  ~ In (CallSetPageSegMode mode) (calls (prepare iter c api)).
Proof.
  intros Hfail.
  destruct (prepare_failed iter c api e Hfail) as (done & k & v & rest & _ & _ & _ & _ & ->).
  intros [Hx | Hx]; [discriminate|].
  apply in_app_or in Hx as [Hx | [Hx | []]]; [|discriminate].
  apply In_binding_calls in Hx as (k' & v' & Hx). discriminate.
Qed.

End PrepareFacts.

(** X1: a [prepare] that returns nil has set the image, then made one
    binding call for every entry of the map, handing over the C strings of
    its key and value, and no other binding call, then set the page
    segmentation mode when there is one.  When no key and no value holds a
    NUL byte the calls carry the entries themselves and no two are the
    same. *)
Theorem X1_prepare_binds_each_entry_once :
  forall (E : Engine) (iter : gmap string string -> list (string * string))
         (c : Client) (api : TessBaseAPI) (m : gmap string string),
    map_order iter ->
    Variables c = Some m ->
    result (prepare iter c api) = None ->
    exists bs,
      calls (prepare iter c api)
      = (CallSetImage (C_CString (ImagePath c)) :: bs ++ mode_calls c)%list
      /\ bs ≡ₚ binding_calls (map_to_list m)
      /\ List.length bs = size m
      /\ (forall x, In x bs <->
                    exists k v, m !! k = Some v
                                /\ x = CallSetVariable (C_CString k) (C_CString v))
      /\ ((forall k v, m !! k = Some v -> NUL_free k = true /\ NUL_free v = true) ->
          NoDup bs /\ forall k v, In (CallSetVariable k v) bs <-> m !! k = Some v).
Proof.
  intros E iter c api m Hord Hm Hok.
  assert (Hentry : forall k v, In (k, v) (iter m) <-> m !! k = Some v).
  { intros k v. rewrite <- list_elem_of_In, (Hord m). apply elem_of_map_to_list. }
  assert (Hin : forall x, In x (binding_calls (iter m)) <->
                  exists k v, m !! k = Some v
                              /\ x = CallSetVariable (C_CString k) (C_CString v)).
  { intros x. rewrite In_binding_calls_iff. split; intros (k & v & Hkv & ->);
      exists k, v; (split; [now apply Hentry | reflexivity]). }
  exists (binding_calls (iter m)).
  rewrite (prepare_ok iter c api Hok), Hm. cbn [range].
  split; [reflexivity|]. split; [|split; [|split]].
  - unfold binding_calls. apply Permutation_map, Hord.
  - unfold binding_calls. rewrite length_map, (Hord m). apply length_map_to_list.
  - exact Hin.
  - intros Hfree. split.
    + apply NoDup_binding_calls.
      * rewrite (Hord m). apply NoDup_map_to_list.
      * intros k v Hkv. now apply Hfree, Hentry.
    + intros k v. rewrite Hin. split.
      * intros (k0 & v0 & Hkv & Heq). destruct (Hfree k0 v0 Hkv) as [Hk Hv].
        rewrite !C_CString_id in Heq by assumption. now injection Heq as -> ->.
      * intros Hkv. exists k, v. destruct (Hfree k v Hkv) as [Hk Hv].
        now rewrite !C_CString_id by assumption.
Qed.

Lemma X1_prepare_binds_each_entry_once_witness :
  let c := set_Variables Sim.fresh (Some (<["a" := "1"]> (<["b" := "2"]> ∅))) in
  map_order map_to_list
  /\ result (prepare (E := Sim.engine) map_to_list c Sim.blank) = None
  /\ exists bs,
      calls (prepare (E := Sim.engine) map_to_list c Sim.blank)
      = (CallSetImage "" :: bs ++ [])%list
      /\ List.length bs = 2%nat.
Proof.
  split; [intros m; reflexivity|]. split; [reflexivity|].
  destruct (X1_prepare_binds_each_entry_once Sim.engine map_to_list
              (set_Variables Sim.fresh (Some (<["a" := "1"]> (<["b" := "2"]> ∅))))
              Sim.blank (<["a" := "1"]> (<["b" := "2"]> ∅)))
    as (bs & Hcalls & _ & Hlen & _);
    [intros m; reflexivity | reflexivity | reflexivity |].
  exists bs. split; [exact Hcalls | exact Hlen].
Defined.

(** X2: with a nil map or an empty map [prepare] cannot fail: it sets the
    image, sets the page segmentation mode when there is one, and returns
    nil, whatever the engine answers. *)
Theorem X2_prepare_without_variables :
  forall (E : Engine) (iter : gmap string string -> list (string * string))
         (c : Client) (api : TessBaseAPI),
    map_order iter ->
    Variables c = None \/ Variables c = Some ∅ ->
    prepare iter c api =
    (None,
     match PageSegMode c with
     | Some mode => C_SetPageSegMode (C_SetImage api (C_CString (ImagePath c))) (C_int mode)
     | None => C_SetImage api (C_CString (ImagePath c))
     end,
     CallSetImage (C_CString (ImagePath c)) :: mode_calls c).
Proof.
  intros E iter c api Hord Hmap.
  assert (Hrange : range iter (Variables c) = []).
  { destruct Hmap as [-> | ->]; cbn [range]; [reflexivity|].
    apply Permutation_nil_r. rewrite (Hord ∅). now rewrite map_to_list_empty. }
  pose proof (prepare_run iter c api) as Hrun. cbv zeta in Hrun.
  rewrite Hrange in Hrun. exact Hrun.
Qed.

Lemma X2_prepare_without_variables_witness :
  map_order map_to_list
  /\ (Variables (SetPageSegMode Sim.fresh 6) = None
      \/ Variables (SetPageSegMode Sim.fresh 6) = Some ∅)
  /\ calls (prepare (E := Sim.engine) map_to_list (SetPageSegMode Sim.fresh 6) Sim.blank)
     = [CallSetImage ""; CallSetPageSegMode 6].
Proof.
  split; [intros m; reflexivity|]. split; [right; reflexivity|].
  rewrite (X2_prepare_without_variables Sim.engine map_to_list
             (SetPageSegMode Sim.fresh 6) Sim.blank);
    [reflexivity | intros m; reflexivity | right; reflexivity].
Defined.

(** X3: [prepare] sets the page segmentation mode exactly when a mode is
    stored and every variable was accepted; the value is the stored mode
    converted to a C int, and its call is the last one. *)
Theorem X3_mode_only_after_all_variables :
  forall (E : Engine) (iter : gmap string string -> list (string * string))
         (c : Client) (api : TessBaseAPI) (v : Z),
    (In (CallSetPageSegMode v) (calls (prepare iter c api)) <->
     result (prepare iter c api) = None
     /\ exists mode, PageSegMode c = Some mode /\ v = C_int mode)
    /\ (In (CallSetPageSegMode v) (calls (prepare iter c api)) ->
        exists before,
          calls (prepare iter c api) = (before ++ [CallSetPageSegMode v])%list
          /\ ~ In (CallSetPageSegMode v) before).
Proof.
  intros E iter c api v.
  destruct (result (prepare iter c api)) as [e|] eqn:Hres.
  - pose proof (prepare_failed_no_mode iter c api e v Hres) as Hno.
    split; [split|]; [tauto | intros [Hd _]; discriminate | tauto].
  - rewrite (prepare_ok iter c api Hres).
    assert (Hin : In (CallSetPageSegMode v)
                    (CallSetImage (C_CString (ImagePath c))
                     :: binding_calls (range iter (Variables c)) ++ mode_calls c)%list
                  <-> In (CallSetPageSegMode v) (mode_calls c)).
    { split.
      - intros [Hx | Hx]; [discriminate|].
        apply in_app_or in Hx as [Hx | Hx]; [|exact Hx].
        apply In_binding_calls in Hx as (k' & v' & Hx). discriminate.
      - intros Hx. right. apply in_or_app. now right. }
    split.
    + rewrite Hin, mode_calls_In. split.
      * intros (mode & Hm & [= ->]). eauto.
      * intros (_ & mode & Hm & ->). eauto.
    + rewrite Hin, mode_calls_In. intros (mode & Hm & [= ->]).
      unfold mode_calls. rewrite Hm.
      exists (CallSetImage (C_CString (ImagePath c)) :: binding_calls (range iter (Variables c))).
      split; [reflexivity|].
      intros [Hx | Hx]; [discriminate|].
      apply In_binding_calls in Hx as (k' & v' & Hx). discriminate.
Qed.

(** X4: after [SetPageSegMode(mode)], a [prepare] that returns nil ends
    with the call that sets the mode; the value handed over fits a C int
    and differs from [mode] by a multiple of 2^32, so it is [mode] itself
    whenever [mode] fits a C int. *)
Theorem X4_SetPageSegMode_reaches_engine :
  forall (E : Engine) (iter : gmap string string -> list (string * string))
         (c : Client) (api : TessBaseAPI) (mode : Z),
    result (prepare iter (SetPageSegMode c mode) api) = None ->
    exists before v,
      calls (prepare iter (SetPageSegMode c mode) api)
      = (before ++ [CallSetPageSegMode v])%list
      /\ - 2 ^ 31 <= v < 2 ^ 31
      /\ (v - mode) mod 2 ^ 32 = 0
      /\ (- 2 ^ 31 <= mode < 2 ^ 31 -> v = mode).
Proof.
  intros E iter c api mode Hok.
  exists (CallSetImage (C_CString (ImagePath c)) :: binding_calls (range iter (Variables c))),
         (C_int mode).
  split; [|split; [|split]].
  - rewrite (prepare_ok _ _ _ Hok). reflexivity.
  - apply C_int_range.
  - unfold C_int.
    pose proof (Z.div_mod (mode + 2 ^ 31) (2 ^ 32)) as Hdm.
    set (q := (mode + 2 ^ 31) / 2 ^ 32) in *.
    set (r := (mode + 2 ^ 31) mod 2 ^ 32) in *.
    replace (r - 2 ^ 31 - mode) with (- q * 2 ^ 32) by lia.
    apply Z.mod_mul. lia.
  - apply C_int_small.
Qed.

Lemma X4_SetPageSegMode_reaches_engine_witness :
  result (prepare (E := Sim.engine) map_to_list
            (SetPageSegMode Sim.fresh (2 ^ 32 + 3)) Sim.blank) = None
  /\ exists before v,
      calls (prepare (E := Sim.engine) map_to_list
               (SetPageSegMode Sim.fresh (2 ^ 32 + 3)) Sim.blank)
      = (before ++ [CallSetPageSegMode v])%list
      /\ - 2 ^ 31 <= v < 2 ^ 31
      /\ (v - (2 ^ 32 + 3)) mod 2 ^ 32 = 0
      /\ (- 2 ^ 31 <= 2 ^ 32 + 3 < 2 ^ 31 -> v = 2 ^ 32 + 3).
Proof.
  split; [reflexivity|].
  apply (X4_SetPageSegMode_reaches_engine Sim.engine map_to_list Sim.fresh Sim.blank
           (2 ^ 32 + 3)).
  reflexivity.
Defined.

(** X5: after [SetWhitelist(w)], a [prepare] that returns nil has bound
    the name "tessedit_char_whitelist" to the C string of [w]; and when no
    other key of the map reads as that name to the engine, it has bound
    the name to nothing else: an earlier whitelist or an earlier
    [SetVariable] of that key is gone. *)
Theorem X5_SetWhitelist_reaches_engine :
  forall (E : Engine) (iter : gmap string string -> list (string * string))
         (c c' : Client) (api : TessBaseAPI) (w : string),
    map_order iter ->
    SetWhitelist c w = Returns c' ->
    result (prepare iter c' api) = None ->
    In (CallSetVariable "tessedit_char_whitelist" (C_CString w))
       (calls (prepare iter c' api))
    /\ ((forall m' k, Variables c' = Some m' -> is_Some (m' !! k) ->
                      C_CString k = "tessedit_char_whitelist" ->
                      k = "tessedit_char_whitelist") ->
        forall v, In (CallSetVariable "tessedit_char_whitelist" v)
                    (calls (prepare iter c' api)) -> v = C_CString w).
Proof.
  intros E iter c c' api w Hord Hset Hok.
  unfold SetWhitelist, SetVariable in Hset.
  destruct (Variables c) as [m|] eqn:Hm; [|discriminate]. injection Hset as <-.
  set (m' := <["tessedit_char_whitelist" := w]> m) in *.
  assert (Hentry : forall k v, In (k, v) (iter m') <-> m' !! k = Some v).
  { intros k v. rewrite <- list_elem_of_In, (Hord m'). apply elem_of_map_to_list. }
  rewrite (prepare_ok _ _ _ Hok). cbn [set_Variables Variables range ImagePath].
  split.
  - right. apply in_or_app. left. apply In_binding_calls_iff.
    exists "tessedit_char_whitelist", w. split; [|reflexivity].
    apply Hentry. apply lookup_insert_eq.
  - intros Hkeys v [Hx | Hx]; [discriminate|].
    apply in_app_or in Hx as [Hx | Hx].
    + apply In_binding_calls_iff in Hx as (k & v0 & Hin & Heq).
      injection Heq as Hk ->. apply Hentry in Hin.
      assert (Hkey : k = "tessedit_char_whitelist").
      { apply (Hkeys m'); [reflexivity | now rewrite Hin | now rewrite <- Hk]. }
      subst k. unfold m' in Hin. rewrite lookup_insert_eq in Hin. congruence.
    + apply mode_calls_In in Hx as (mode & _ & Hx). discriminate.
Qed.

Lemma X5_SetWhitelist_reaches_engine_witness :
  let c := set_Variables Sim.fresh (Some (<["tessedit_char_whitelist" := "abc"]> ∅)) in
  let c' := set_Variables Sim.fresh (Some (<["tessedit_char_whitelist" := "0123456789"]> ∅)) in
  map_order map_to_list
  /\ SetWhitelist c "0123456789" = Returns c'
  /\ result (prepare (E := Sim.engine) map_to_list c' Sim.blank) = None
  /\ In (CallSetVariable "tessedit_char_whitelist" "0123456789")
       (calls (prepare (E := Sim.engine) map_to_list c' Sim.blank)).
Proof.
  split; [intros m; reflexivity|].
  assert (Hset : SetWhitelist
                   (set_Variables Sim.fresh (Some (<["tessedit_char_whitelist" := "abc"]> ∅)))
                   "0123456789"
                 = Returns (set_Variables Sim.fresh
                              (Some (<["tessedit_char_whitelist" := "0123456789"]> ∅)))).
  { unfold SetWhitelist, SetVariable. cbn [set_Variables Variables].
    now rewrite insert_insert_eq. }
  split; [exact Hset|]. split; [reflexivity|].
  apply (X5_SetWhitelist_reaches_engine Sim.engine map_to_list _ _ Sim.blank
           "0123456789" (fun m => reflexivity _) Hset).
  reflexivity.
Defined.

(** ** [prepare] against an engine that binds variables independently *)

(** X6: against an engine that binds variables independently, and for a
    map no two keys of which are one name to the engine, [prepare] returns
    nil exactly when the engine, in the state the image was set in,
    accepts every entry of the map; and the error of a failing [prepare]
    names an entry of the map that the engine rejects in that state,
    whatever the order the map was visited in. *)
Theorem X6_prepare_fails_on_a_rejected_entry :
  forall (E : Engine) (iter : gmap string string -> list (string * string))
         (c : Client) (api : TessBaseAPI) (m : gmap string string),
    independent_bindings E ->
    map_order iter ->
    Variables c = Some m ->
    NoDup (C_names (map_to_list m)) ->
    let ready := C_SetImage api (C_CString (ImagePath c)) in
    (result (prepare iter c api) = None <->
     forall k v, m !! k = Some v ->
                 snd (C_SetVariable ready (C_CString k) (C_CString v)) = true)
    /\ (forall e, result (prepare iter c api) = Some e ->
        exists k v, e = SetVariableFailed k v
                    /\ m !! k = Some v
                    /\ snd (C_SetVariable ready (C_CString k) (C_CString v)) = false).
Proof.
  intros E iter c api m Hind Hord Hm Hdist ready. subst ready.
  assert (Hnd : NoDup (C_names (iter m))).
  { unfold C_names in *. now rewrite (Hord m). }
  assert (Hentry : forall k v, In (k, v) (iter m) <-> m !! k = Some v).
  { intros k v. rewrite <- list_elem_of_In, (Hord m). apply elem_of_map_to_list. }
  split.
  - pose proof (bind_all_bound (iter m) (C_SetImage api (C_CString (ImagePath c)))) as Hb.
    pose proof (bound_all_accepted Hind (iter m)
                  (C_SetImage api (C_CString (ImagePath c))) Hnd) as Hacc.
    pose proof (prepare_run iter c api) as Hrun. cbv zeta in Hrun.
    rewrite Hm in Hrun. cbn [range] in Hrun. rewrite Hrun.
    destruct (bound (iter m) (C_SetImage api (C_CString (ImagePath c)))) as [api'|].
    + destruct Hb as [Hb _]. rewrite Hb, result_run. split; [|reflexivity].
      intros _ k v Hkv. apply Hacc; [discriminate | now apply Hentry].
    + destruct (result (bind_all (iter m) (C_SetImage api (C_CString (ImagePath c)))))
        as [e|]; [|congruence].
      rewrite result_run. split; [discriminate|].
      intros Hall. exfalso. apply Hacc; [|reflexivity].
      intros k v Hin. apply Hall. now apply Hentry.
  - intros e He.
    destruct (prepare_failed iter c api e He)
      as (done & k & v & rest & Hl & -> & _ & Hrej & _).
    rewrite Hm in Hl. cbn [range] in Hl.
    exists k, v. split; [reflexivity|]. split.
    + apply Hentry. rewrite Hl. apply in_or_app. right. now left.
    + rewrite <- Hrej. symmetry. apply (accepted_after Hind).
      rewrite Hl in Hnd. unfold C_names in Hnd. rewrite fmap_app, fmap_cons in Hnd.
      apply NoDup_app in Hnd as (_ & Hdisj & _).
      intros Hk. apply (Hdisj _ Hk). apply list_elem_of_here.
Qed.

Lemma X6_prepare_fails_on_a_rejected_entry_witness :
  let m : gmap string string := <["" := "x"]> (<["a" := "1"]> ∅) in
  let c := set_Variables Sim.fresh (Some m) in
  independent_bindings Sim.engine
  /\ map_order (fun m => reverse (map_to_list m))
  /\ NoDup (C_names (map_to_list m))
  /\ exists k v,
      result (prepare (E := Sim.engine) (fun m => reverse (map_to_list m)) c Sim.blank)
      = Some (SetVariableFailed k v)
      /\ snd (@C_SetVariable Sim.engine
                (@C_SetImage Sim.engine Sim.blank (C_CString (ImagePath c)))
                (C_CString k) (C_CString v))
         = false.
Proof.
  assert (Hdist : NoDup (C_names (map_to_list
                                    (<["" := "x"]> (<["a" := "1"]> ∅) : gmap string string)))).
  { apply (bool_decide_unpack _). vm_compute. exact I. }
  split; [exact Sim_independent_bindings|]. split; [exact reverse_order|].
  split; [exact Hdist|].
  destruct (X6_prepare_fails_on_a_rejected_entry Sim.engine
              (fun m => reverse (map_to_list m))
              (set_Variables Sim.fresh (Some (<["" := "x"]> (<["a" := "1"]> ∅))))
              Sim.blank (<["" := "x"]> (<["a" := "1"]> ∅))
              Sim_independent_bindings reverse_order eq_refl Hdist) as [_ Hfail].
  destruct (Hfail (SetVariableFailed "" "x") eq_refl) as (k & v & Heq & _ & Hrej).
  exists k, v. split; [now rewrite <- Heq | exact Hrej].
Defined.

(** ** [Text] and [HTML] side by side *)

(** X7: against an engine that binds variables independently, and for a
    map no two keys of which are one name to the engine, the order in
    which Go visits the map does not show in what [Text] and [HTML]
    return: two runs from one state with two orders return the same
    string, succeed together, and on success leave the engine in one
    state. *)
Theorem X7_result_independent_of_map_order :
  forall (E : Engine) (fs : os.FileSystem)
         (iter1 iter2 : gmap string string -> list (string * string))
         (c : Client) (api : TessBaseAPI),
    independent_bindings E -> map_order iter1 -> map_order iter2 ->
    distinct_C_names c ->
    fst (result (Text fs iter1 c api)) = fst (result (Text fs iter2 c api))
    /\ fst (result (HTML fs iter1 c api)) = fst (result (HTML fs iter2 c api))
    /\ (snd (result (Text fs iter1 c api)) = None <->
        snd (result (Text fs iter2 c api)) = None)
    /\ (snd (result (HTML fs iter1 c api)) = None <->
        snd (result (HTML fs iter2 c api)) = None)
    /\ (snd (result (Text fs iter1 c api)) = None ->
        handle (Text fs iter1 c api) = handle (Text fs iter2 c api)
        /\ handle (HTML fs iter1 c api) = handle (HTML fs iter2 c api)).
Proof.
  intros E fs iter1 iter2 c api Hind H1 H2 Hdist.
  destruct (result (init fs c api)) as [e|] eqn:Hi.
  { rewrite !(Text_init_failed fs _ c api e Hi), !(HTML_init_failed fs _ c api e Hi),
      !result_run.
    cbn [fst snd]. repeat split; discriminate. }
  destruct (prepare_orders Hind iter1 iter2 c (handle (init fs c api)) H1 H2 Hdist)
    as [Hiff Hstate].
  destruct (result (prepare iter1 c (handle (init fs c api)))) as [e1|] eqn:Hp1.
  { destruct (result (prepare iter2 c (handle (init fs c api)))) as [e2|] eqn:Hp2;
      [|destruct Hiff as [_ Hiff]; specialize (Hiff eq_refl); discriminate].
    rewrite (Text_prepare_failed fs iter1 c api e1 Hi Hp1),
      (Text_prepare_failed fs iter2 c api e2 Hi Hp2),
      (HTML_prepare_failed fs iter1 c api e1 Hi Hp1),
      (HTML_prepare_failed fs iter2 c api e2 Hi Hp2), !result_run.
    cbn [fst snd]. repeat split; discriminate. }
  destruct Hiff as [Hiff _]. specialize (Hiff eq_refl). specialize (Hstate eq_refl).
  rewrite (Text_extracts fs iter1 c api Hi Hp1), (Text_extracts fs iter2 c api Hi Hiff),
    (HTML_extracts fs iter1 c api Hi Hp1), (HTML_extracts fs iter2 c api Hi Hiff),
    !result_run, !handle_run, <- Hstate.
  cbn [fst snd]. repeat split.
Qed.

Lemma X7_result_independent_of_map_order_witness :
  let c := SetImage (set_Variables Sim.fresh (Some (<["a" := "1"]> (<["b" := "2"]> ∅))))
             "hello.png" in
  let other := fun m : gmap string string => reverse (map_to_list m) in
  independent_bindings Sim.engine /\ map_order map_to_list /\ map_order other
  /\ distinct_C_names c
  /\ calls (Text (E := Sim.engine) Sim.no_file map_to_list c Sim.blank)
     <> calls (Text (E := Sim.engine) Sim.no_file other c Sim.blank)
  /\ fst (result (Text (E := Sim.engine) Sim.no_file map_to_list c Sim.blank))
     = fst (result (Text (E := Sim.engine) Sim.no_file other c Sim.blank)).
Proof.
  assert (Hdist : distinct_C_names
                    (SetImage (set_Variables Sim.fresh
                                 (Some (<["a" := "1"]> (<["b" := "2"]> ∅))))
                       "hello.png")).
  { apply (bool_decide_unpack _). vm_compute. exact I. }
  split; [exact Sim_independent_bindings|]. split; [intros m; reflexivity|].
  split; [exact reverse_order|]. split; [exact Hdist|].
  split; [vm_compute; discriminate|].
  apply (X7_result_independent_of_map_order Sim.engine Sim.no_file map_to_list
           (fun m => reverse (map_to_list m))
           (SetImage (set_Variables Sim.fresh (Some (<["a" := "1"]> (<["b" := "2"]> ∅))))
              "hello.png")
           Sim.blank Sim_independent_bindings (fun m => reflexivity _) reverse_order
           Hdist).
Defined.

(** X8: [Text] and [HTML] fail together and alike: on the same Client,
    state and file system they return the same error, and when it is not
    nil they made the same calls and left the same engine state.  When it
    is nil they made the same calls up to the last one, which asks for the
    text in one and for the hOCR in the other. *)
Theorem X8_Text_and_HTML_fail_alike :
  forall (E : Engine) (fs : os.FileSystem)
         (iter : gmap string string -> list (string * string))
         (c : Client) (api : TessBaseAPI),
    snd (result (Text fs iter c api)) = snd (result (HTML fs iter c api))
    /\ (snd (result (Text fs iter c api)) <> None ->
        Text fs iter c api = HTML fs iter c api)
    /\ (snd (result (Text fs iter c api)) = None ->
        exists before,
          calls (Text fs iter c api) = (before ++ [CallUTF8Text])%list
          /\ calls (HTML fs iter c api) = (before ++ [CallHOCRText])%list
          /\ ~ In CallUTF8Text before /\ ~ In CallHOCRText before).
Proof.
  intros E fs iter c api.
  destruct (result (init fs c api)) as [e|] eqn:Hi.
  { rewrite (Text_init_failed fs iter c api e Hi), (HTML_init_failed fs iter c api e Hi),
      !result_run.
    cbn [fst snd]. split; [reflexivity|]. split; [intros _; reflexivity | discriminate]. }
  destruct (result (prepare iter c (handle (init fs c api)))) as [e|] eqn:Hp.
  { rewrite (Text_prepare_failed fs iter c api e Hi Hp),
      (HTML_prepare_failed fs iter c api e Hi Hp), !result_run.
    cbn [fst snd]. split; [reflexivity|]. split; [intros _; reflexivity | discriminate]. }
  rewrite (Text_extracts fs iter c api Hi Hp), (HTML_extracts fs iter c api Hi Hp),
    !result_run, !calls_run.
  cbn [fst snd]. split; [reflexivity|]. split; [congruence|]. intros _.
  exists (calls (init fs c api) ++ calls (prepare iter c (handle (init fs c api))))%list.
  rewrite !app_assoc. split; [reflexivity|]. split; [reflexivity|].
  rewrite init_calls, (prepare_ok _ _ _ Hp). cbn [app].
  assert (Hnone : forall x, (forall k v, x <> CallSetVariable k v) ->
            (forall d l g, x <> CallInit d l g) -> (forall p, x <> CallSetImage p) ->
            (forall mode, x <> CallSetPageSegMode mode) ->
            ~ In x (CallInit None (charLangs c) (charConfig fs c)
                    :: CallSetImage (C_CString (ImagePath c))
                    :: binding_calls (range iter (Variables c)) ++ mode_calls c)%list).
  { intros x Hv Hin Hs Hmode [<- | [<- | Hx]];
      [eapply Hin; reflexivity | eapply Hs; reflexivity |].
    apply in_app_or in Hx as [Hx | Hx].
    - apply In_binding_calls in Hx as (k' & v' & ->). eapply Hv; reflexivity.
    - apply mode_calls_In in Hx as (mode & _ & ->). eapply Hmode; reflexivity. }
  split; apply Hnone; discriminate.
Qed.

(** X9: the field [Trim] shows in the string [Text] returns and nowhere
    else: [HTML] is the same with either value, and so are the error, the
    engine calls and the engine state of [Text].  With [Trim] off, [Text]
    returns the text of the engine untouched, and [HTML] returns the hOCR
    of the engine untouched with [Trim] on or off. *)
Theorem X9_Trim_only_changes_the_text :
  forall (E : Engine) (fs : os.FileSystem)
         (iter : gmap string string -> list (string * string))
         (c : Client) (api : TessBaseAPI) (b : bool),
    HTML fs iter (set_Trim c b) api = HTML fs iter c api
    /\ snd (result (Text fs iter (set_Trim c b) api)) = snd (result (Text fs iter c api))
    /\ handle (Text fs iter (set_Trim c b) api) = handle (Text fs iter c api)
    /\ calls (Text fs iter (set_Trim c b) api) = calls (Text fs iter c api)
    /\ (snd (result (Text fs iter c api)) = None ->
        fst (result (Text fs iter (set_Trim c false) api))
        = snd (C_UTF8Text (handle (prepare iter c (handle (init fs c api)))))
        /\ fst (result (HTML fs iter (set_Trim c b) api))
           = snd (C_HOCRText (handle (prepare iter c (handle (init fs c api)))))).
Proof.
  intros E fs iter c api b.
  assert (Hinit : forall b', init fs (set_Trim c b') api = init fs c api) by reflexivity.
  assert (Hprep : forall b' a, prepare iter (set_Trim c b') a = prepare iter c a)
    by reflexivity.
  split; [reflexivity|].
  destruct (result (init fs c api)) as [e|] eqn:Hi.
  { assert (Hi' : forall b', result (init fs (set_Trim c b') api) = Some e)
      by (intros b'; now rewrite Hinit).
    rewrite (Text_init_failed fs iter c api e Hi),
      !(Text_init_failed fs iter (set_Trim c _) api e (Hi' _)),
      !result_run, !handle_run, !calls_run, !Hinit.
    cbn [fst snd]. repeat split; congruence. }
  assert (Hi' : forall b', result (init fs (set_Trim c b') api) = None)
    by (intros b'; now rewrite Hinit).
  destruct (result (prepare iter c (handle (init fs c api)))) as [e|] eqn:Hp.
  { assert (Hp' : forall b', result (prepare iter (set_Trim c b')
                                       (handle (init fs (set_Trim c b') api))) = Some e)
      by (intros b'; now rewrite Hinit, Hprep).
    rewrite (Text_prepare_failed fs iter c api e Hi Hp),
      !(Text_prepare_failed fs iter (set_Trim c _) api e (Hi' _) (Hp' _)),
      !result_run, !handle_run, !calls_run, !Hinit, !Hprep.
    cbn [fst snd]. repeat split; congruence. }
  assert (Hp' : forall b', result (prepare iter (set_Trim c b')
                                     (handle (init fs (set_Trim c b') api))) = None)
    by (intros b'; now rewrite Hinit, Hprep).
  rewrite (Text_extracts fs iter c api Hi Hp),
    !(Text_extracts fs iter (set_Trim c _) api (Hi' _) (Hp' _)),
    (HTML_extracts fs iter (set_Trim c b) api (Hi' _) (Hp' _)),
    !result_run, !handle_run, !calls_run, !Hinit, !Hprep.
  cbn [fst snd set_Trim Trim]. repeat split.
Qed.

Lemma newlines_app (a b : nat) : newlines a +:+ newlines b = newlines (a + b).
Proof.
  induction a as [|a IH]; [reflexivity|].
  cbn [newlines Nat.add]. now rewrite append_String, IH.
Qed.

Lemma TrimRight_newlines (n : nat) : strings.TrimRight (newlines n) nl = "".
Proof.
  induction n as [|n IH]; [reflexivity|].
  cbn [newlines strings.TrimRight]. rewrite IH, in_cutset_nl.
  now rewrite (proj2 (Ascii.eqb_eq newline newline) eq_refl).
Qed.

(** X10: with [Trim] set, a [Text] that succeeds returns the empty string
    exactly when the text of the engine is made of newlines only (none
    included): such a text cannot be told from no text at all. *)
Theorem X10_Text_empty_iff_only_newlines :
  forall (E : Engine) (fs : os.FileSystem)
         (iter : gmap string string -> list (string * string))
         (c : Client) (api : TessBaseAPI),
    Trim c = true ->
    snd (result (Text fs iter c api)) = None ->
    (fst (result (Text fs iter c api)) = "" <->
     exists n, snd (C_UTF8Text (handle (prepare iter c (handle (init fs c api)))))
               = newlines n).
Proof.
  intros E fs iter c api Htrim Hok.
  destruct (result (init fs c api)) as [e|] eqn:Hi.
  { rewrite (Text_init_failed fs iter c api e Hi), result_run in Hok. discriminate. }
  destruct (result (prepare iter c (handle (init fs c api)))) as [e|] eqn:Hp.
  { rewrite (Text_prepare_failed fs iter c api e Hi Hp), result_run in Hok. discriminate. }
  rewrite (Text_extracts fs iter c api Hi Hp), result_run, Htrim. cbn [fst].
  set (raw := snd (C_UTF8Text (handle (prepare iter c (handle (init fs c api)))))).
  split.
  - intros Hempty. destruct (Trim_nl raw) as (a & b & Hsplit & _).
    rewrite Hempty, append_nil_l, newlines_app in Hsplit. eauto.
  - intros [n ->]. unfold strings.Trim. now rewrite TrimRight_newlines.
Qed.

Lemma X10_Text_empty_iff_only_newlines_witness :
  Trim Sim.fresh = true
  /\ snd (result (Text (E := Sim.engine) Sim.no_file map_to_list Sim.fresh Sim.blank)) = None
  /\ fst (result (Text (E := Sim.engine) Sim.no_file map_to_list Sim.fresh Sim.blank)) = "".
Proof.
  split; [reflexivity|]. split; [reflexivity|].
  apply (X10_Text_empty_iff_only_newlines Sim.engine Sim.no_file map_to_list
           Sim.fresh Sim.blank); [reflexivity | reflexivity |].
  exists 0%nat. reflexivity.
Defined.

(** ** The language identifier *)

Lemma plus_free_cons (b : ascii) (s : string) :
  plus_free (String b s) = true -> b <> plus /\ plus_free s = true.
Proof.
  cbn [plus_free]. rewrite andb_true_iff, negb_true_iff. intros [Hb Hs].
  split; [|exact Hs]. intros ->. now rewrite (proj2 (Ascii.eqb_eq plus plus) eq_refl) in Hb.
Qed.

(** Where the first language ends can be read off the identifier. *)
Lemma language_then_rest (x x' t t' : string) :
  plus_free x = true -> plus_free x' = true -> plus_led t -> plus_led t' ->
  x +:+ t = x' +:+ t' -> x = x' /\ t = t'.
Proof.
  revert x'. induction x as [|a x IH]; intros [|a' x'] Hx Hx' Ht Ht'.
  - rewrite !append_nil_l. auto.
  - rewrite append_nil_l, append_String. intros ->.
    apply plus_free_cons in Hx' as [Ha' _].
    destruct Ht as [Ht | Ht]; [discriminate | cbn in Ht; congruence].
  - rewrite append_nil_l, append_String. intros <-.
    apply plus_free_cons in Hx as [Ha _].
    destruct Ht' as [Ht' | Ht']; [discriminate | cbn in Ht'; congruence].
  - rewrite !append_String. intros [= <- Heq].
    apply plus_free_cons in Hx as [_ Hx]. apply plus_free_cons in Hx' as [_ Hx'].
    destruct (IH x' Hx Hx' Ht Ht' Heq) as [-> ->]. auto.
Qed.

Lemma Join_plus_inj (l l' : list string) :
  l <> [] -> l' <> [] ->
  Forall (fun s => plus_free s = true) l -> Forall (fun s => plus_free s = true) l' ->
  strings.Join l "+" = strings.Join l' "+" -> l = l'.
Proof.
  revert l'. induction l as [|x l IH]; intros [|x' l'] Hne Hne' Hl Hl' Heq;
    try congruence.
  apply Forall_cons in Hl as [Hx Hl]. apply Forall_cons in Hl' as [Hx' Hl'].
  assert (Hled : forall r : list string,
             plus_led (match r with [] => "" | _ => "+" +:+ strings.Join r "+" end)).
  { intros [|y r]; [now left | right; reflexivity]. }
  assert (Hform : forall (y : string) (r : list string),
             strings.Join (y :: r) "+"
             = y +:+ match r with [] => "" | _ => "+" +:+ strings.Join r "+" end).
  { intros y [|z r]; [|reflexivity]. cbn [strings.Join].
    clear. induction y as [|a y IHy]; [reflexivity|]. now rewrite append_String, <- IHy. }
  rewrite !Hform in Heq.
  destruct (language_then_rest _ _ _ _ Hx Hx' (Hled l) (Hled l') Heq) as [-> Hrest].
  f_equal. destruct l as [|y l], l' as [|y' l']; try reflexivity; try discriminate.
  apply IH; try discriminate; try assumption.
  rewrite !append_String, !append_nil_l in Hrest. now injection Hrest.
Qed.

(** X11: when no language holds a '+' or a NUL byte, the identifier
    [charLangs] builds tells the list it was built from: two Clients with
    the same identifier (or both with none) have the same list of
    languages.  In particular the null pointer stands for the empty list
    only. *)
Theorem X11_charLangs_tells_the_languages :
  forall (c c' : Client),
    Forall (fun s => plus_free s = true /\ NUL_free s = true) (Languages c) ->
    Forall (fun s => plus_free s = true /\ NUL_free s = true) (Languages c') ->
    charLangs c = charLangs c' ->
    Languages c = Languages c'.
Proof.
  intros c c' Hc Hc'. rewrite !charLangs_spec.
  assert (Hwhole : forall first rest,
             Forall (fun s => plus_free s = true /\ NUL_free s = true) (first :: rest) ->
             C_CString (plus_joined first rest) = strings.Join (first :: rest) "+").
  { intros first rest Hall. unfold plus_joined. rewrite <- Join_fold.
    apply C_CString_id. rewrite Join_fold. apply Forall_cons in Hall as [[_ Hfirst] Hrest].
    apply plus_joined_NUL_free; [exact Hfirst|].
    eapply Forall_impl; [exact Hrest | now intros s [_ Hs]]. }
  destruct (Languages c) as [|x l] eqn:Hl, (Languages c') as [|x' l'] eqn:Hl';
    try discriminate; [reflexivity|].
  rewrite (Hwhole _ _ Hc), (Hwhole _ _ Hc'). intros [= Heq].
  apply Join_plus_inj; try discriminate; try exact Heq.
  - eapply Forall_impl; [exact Hc | now intros s [Hs _]].
  - eapply Forall_impl; [exact Hc' | now intros s [Hs _]].
Qed.

Lemma X11_charLangs_tells_the_languages_witness :
  let c := SetLanguage Sim.fresh ["eng"; "fra"] in
  let c' := SetImage (SetLanguage (SetLanguage Sim.fresh ["deu"]) ["eng"; "fra"]) "a.png" in
  Forall (fun s => plus_free s = true /\ NUL_free s = true) (Languages c)
  /\ Forall (fun s => plus_free s = true /\ NUL_free s = true) (Languages c')
  /\ c <> c'
  /\ charLangs c = charLangs c'
  /\ Languages c = Languages c'.
Proof.
  assert (H : Forall (fun s => plus_free s = true /\ NUL_free s = true)
                (Languages (SetLanguage Sim.fresh ["eng"; "fra"])))
    by (repeat constructor).
  assert (H' : Forall (fun s => plus_free s = true /\ NUL_free s = true)
                 (Languages (SetImage (SetLanguage (SetLanguage Sim.fresh ["deu"])
                                         ["eng"; "fra"]) "a.png")))
    by (repeat constructor).
  split; [exact H|]. split; [exact H'|]. split; [discriminate|].
  split; [reflexivity|].
  apply (X11_charLangs_tells_the_languages _ _ H H'). reflexivity.
Defined.

(** The hypotheses of X11 are needed: a language with a '+' in it gives
    the identifier of the list of its pieces, and what comes after a NUL
    byte does not reach the identifier. *)
Example charLangs_collides (c : Client) :
  charLangs (SetLanguage c ["eng+fra"]) = charLangs (SetLanguage c ["eng"; "fra"])
  /\ charLangs (SetLanguage c [String "e" (String NUL "x")])
     = charLangs (SetLanguage c [String "e" (String NUL "y")]).
Proof. split; reflexivity. Qed.

(** ** The configuration file from [SetConfigFile] to [init] *)

(** X12: after a [SetConfigFile] that returned nil, [init] hands the new
    path to the engine exactly when [os.Stat] finds it at that moment, and
    a null pointer otherwise; the languages are those of before.  After a
    [SetConfigFile] that returned an error, [init] makes the call it would
    have made without it. *)
Theorem X12_SetConfigFile_then_init :
  forall (E : Engine) (fs0 fs : os.FileSystem) (c : Client) (fpath : string)
         (api : TessBaseAPI),
    let c' := fst (SetConfigFile fs0 c fpath) in
    (snd (SetConfigFile fs0 c fpath) = None ->
     calls (init fs c' api)
     = [CallInit None (charLangs c)
          (match os.Stat fs fpath with Some _ => Some fpath | None => None end)])
    /\ (snd (SetConfigFile fs0 c fpath) <> None -> init fs c' api = init fs c api).
Proof.
  intros E fs0 fs c fpath api c'. subst c'. unfold SetConfigFile.
  destruct (os.Stat fs0 fpath) as [[[]]|]; cbn [os.IsDir fst snd]; split;
    try congruence.
  intros _. rewrite init_calls. unfold charConfig.
  cbn [ConfigFilePath set_ConfigFilePath].
  destruct (os.Stat fs fpath) as [info|] eqn:Hs; [|reflexivity].
  now rewrite (C_CString_id _ (Stat_NUL_free _ _ _ Hs)).
Qed.

(** ** Programs: several method calls on one Client *)

Section ProgramFacts.

Context {E : Engine}.

Lemma frees_app (t1 t2 : list CCall) : frees (t1 ++ t2) = (frees t1 + frees t2)%nat.
Proof. unfold frees. now rewrite List.filter_app, length_app. Qed.

Lemma bind_all_frees (l : list (string * string)) (api : TessBaseAPI) :
  frees (calls (bind_all l api)) = 0%nat.
Proof.
  revert api. induction l as [|[k v] l IH]; intros api; [reflexivity|].
  cbn [bind_all]. unfold bind, bind_, SetVariable_, calls.
  destruct (C_SetVariable api (C_CString k) (C_CString v)) as [api1 ok].
  destruct ok; cbn [negb].
  - specialize (IH api1). unfold calls in IH.
    destruct (bind_all l api1) as [[r a] t]. cbn [snd] in *.
    change ([CallSetVariable (C_CString k) (C_CString v)] ++ t)%list
      with (CallSetVariable (C_CString k) (C_CString v) :: t).
    exact IH.
  - reflexivity.
Qed.

Lemma prepare_frees iter (c : Client) (api : TessBaseAPI) :
  frees (calls (prepare iter c api)) = 0%nat.
Proof.
  pose proof (prepare_run iter c api) as Hrun. cbv zeta in Hrun. rewrite Hrun.
  pose proof (bind_all_frees (range iter (Variables c)) (C_SetImage api (C_CString (ImagePath c))))
    as Hb.
  destruct (result (bind_all (range iter (Variables c)) (C_SetImage api (C_CString (ImagePath c)))));
    rewrite calls_run.
  - exact Hb.
  - change (CallSetImage (C_CString (ImagePath c))
            :: calls (bind_all (range iter (Variables c)) (C_SetImage api (C_CString (ImagePath c))))
               ++ mode_calls c)%list
      with ([CallSetImage (C_CString (ImagePath c))]
            ++ calls (bind_all (range iter (Variables c)) (C_SetImage api (C_CString (ImagePath c))))
            ++ mode_calls c)%list.
    rewrite !frees_app, Hb. unfold mode_calls. now destruct (PageSegMode c).
Qed.

Lemma Text_frees fs iter (c : Client) (api : TessBaseAPI) :
  frees (calls (Text fs iter c api)) = 0%nat.
Proof.
  destruct (result (init fs c api)) as [e|] eqn:Hi.
  { now rewrite (Text_init_failed fs iter c api e Hi), calls_run, init_calls. }
  destruct (result (prepare iter c (handle (init fs c api)))) as [e|] eqn:Hp.
  - rewrite (Text_prepare_failed fs iter c api e Hi Hp), calls_run, frees_app,
      prepare_frees, init_calls. reflexivity.
  - rewrite (Text_extracts fs iter c api Hi Hp), calls_run, !frees_app,
      prepare_frees, init_calls. reflexivity.
Qed.

Lemma HTML_frees fs iter (c : Client) (api : TessBaseAPI) :
  frees (calls (HTML fs iter c api)) = 0%nat.
Proof.
  destruct (result (init fs c api)) as [e|] eqn:Hi.
  { now rewrite (HTML_init_failed fs iter c api e Hi), calls_run, init_calls. }
  destruct (result (prepare iter c (handle (init fs c api)))) as [e|] eqn:Hp.
  - rewrite (HTML_prepare_failed fs iter c api e Hi Hp), calls_run, frees_app,
      prepare_frees, init_calls. reflexivity.
  - rewrite (HTML_extracts fs iter c api Hi Hp), calls_run, !frees_app,
      prepare_frees, init_calls. reflexivity.
Qed.

(** One method call frees the engine object once when it is [Close], and
    not at all otherwise. *)
Lemma invoke_frees fs iter (m : Method) (c : Client) (api : TessBaseAPI) :
  frees (calls (invoke fs iter m c api))
  = match m with MClose => 1%nat | _ => 0%nat end.
Proof.
  destruct m; cbn [invoke]; unfold bind, ret, calls; try reflexivity.
  - destruct (SetConfigFile fs c fpath) as [c' e]. reflexivity.
  - pose proof (Text_frees fs iter c api) as Hf. unfold calls in Hf.
    destruct (Text fs iter c api) as [[r a] t]. cbn [snd] in *.
    now rewrite app_nil_r.
  - pose proof (HTML_frees fs iter c api) as Hf. unfold calls in Hf.
    destruct (HTML fs iter c api) as [[r a] t]. cbn [snd] in *.
    now rewrite app_nil_r.
Qed.

(** A setter leaves the engine alone. *)
Lemma invoke_setter fs iter (m : Method) (c : Client) (api : TessBaseAPI) :
  is_setter m = true ->
  handle (invoke fs iter m c api) = api /\ calls (invoke fs iter m c api) = [].
Proof.
  destruct m; cbn [is_setter]; try discriminate; intros _; cbn [invoke];
    try (split; reflexivity).
  destruct (SetConfigFile fs c fpath) as [c' e]. split; reflexivity.
Qed.

Lemma invoke_all_cons (s : step) (rest : list step) (c : Client) (api : TessBaseAPI) :
  invoke_all (s :: rest) c api =
  let first := invoke (at_fs s) (at_iter s) (method s) c api in
  match result first with
  | Returns r =>
      (result (invoke_all rest (self r) (handle first)),
       handle (invoke_all rest (self r) (handle first)),
       (calls first ++ calls (invoke_all rest (self r) (handle first)))%list)
  | Panics msg => (Panics msg, handle first, calls first)
  end.
Proof.
  cbn [invoke_all]. unfold bind at 1. cbv zeta. unfold result, handle, calls.
  destruct (invoke (at_fs s) (at_iter s) (method s) c api) as [[o a] t]. cbn [fst snd].
  destruct o as [r|msg].
  - destruct (invoke_all rest (self r) a) as [[o' a'] t']. reflexivity.
  - unfold ret. now rewrite app_nil_r.
Qed.

End ProgramFacts.

(** X13: on a Client whose map is not nil, as every Client of [NewClient]
    is, no program of method calls panics, in whatever order and with
    [Close] anywhere in it; the map is not nil afterwards either. *)
Theorem X13_no_panic_after_NewClient :
  forall (E : Engine) (steps : list step) (c : Client) (api : TessBaseAPI),
    Variables c <> None ->
    exists c', result (invoke_all steps c api) = Returns c' /\ Variables c' <> None.
Proof.
  intros E steps. induction steps as [|s rest IH]; intros c api Hmap.
  - exists c. split; [reflexivity | exact Hmap].
  - rewrite invoke_all_cons. cbv zeta.
    destruct (map_stays (at_fs s) (at_iter s) (method s) c api Hmap) as (r & Hr & Hmap').
    rewrite Hr, result_run. apply IH, Hmap'.
Qed.

Lemma X13_no_panic_after_NewClient_witness :
  let program :=
    [ {| at_fs := Sim.no_file; at_iter := map_to_list; method := MSetWhitelist "abc" |};
      {| at_fs := Sim.no_file; at_iter := map_to_list; method := MClose |};
      {| at_fs := Sim.no_file; at_iter := map_to_list; method := MSetVariable "k" "v" |};
      {| at_fs := Sim.no_file; at_iter := map_to_list; method := MText |} ] in
  Variables (fst (fst (NewClient (E := Sim.engine)))) <> None
  /\ exists c', result (invoke_all (E := Sim.engine) program
                          (fst (fst (NewClient (E := Sim.engine))))
                          (snd (fst (NewClient (E := Sim.engine)))))
                = Returns c'
                /\ Variables c' <> None.
Proof.
  split; [discriminate|].
  apply (X13_no_panic_after_NewClient Sim.engine). discriminate.
Defined.

(** The panic X13 excludes is real: on a Client with a nil map, the zero
    value of the struct, [SetVariable] and [SetWhitelist] panic. *)
Example nil_map_panics (c : Client) (k v : string) :
  Variables c = None ->
  SetVariable c k v = Panics "assignment to entry in nil map"
  /\ SetWhitelist c v = Panics "assignment to entry in nil map".
Proof. intros Hnil. unfold SetWhitelist, SetVariable. now rewrite Hnil. Qed.

(** X14: a program frees the engine object once for every [Close] in it:
    nothing in client.go keeps a second [Close] from freeing again, and
    nothing but [Close] frees.  A program of setters only makes no engine
    call at all and leaves the engine state as it was. *)
Theorem X14_one_Free_per_Close :
  forall (E : Engine) (steps : list step) (c : Client) (api : TessBaseAPI),
    Variables c <> None ->
    frees (calls (invoke_all steps c api)) = closes steps
    /\ (Forall (fun s => is_setter (method s) = true) steps ->
        calls (invoke_all steps c api) = []
        /\ handle (invoke_all steps c api) = api).
Proof.
  intros E steps. induction steps as [|s rest IH]; intros c api Hmap.
  - split; [reflexivity | intros _; split; reflexivity].
  - rewrite invoke_all_cons. cbv zeta.
    destruct (map_stays (at_fs s) (at_iter s) (method s) c api Hmap) as (r & Hr & Hmap').
    rewrite Hr, calls_run, handle_run.
    destruct (IH (self r) (handle (invoke (at_fs s) (at_iter s) (method s) c api)) Hmap')
      as [Hfrees Hquiet].
    split.
    + rewrite frees_app, Hfrees, invoke_frees. unfold closes. cbn [List.filter].
      destruct (method s); reflexivity.
    + intros Hall. apply Forall_cons in Hall as [Hs Hall].
      destruct (invoke_setter (at_fs s) (at_iter s) (method s) c api Hs) as [Hh Hc].
      destruct (Hquiet Hall) as [Hc' Hh']. rewrite Hc, Hc', Hh', Hh. split; reflexivity.
Qed.

Lemma X14_one_Free_per_Close_witness :
  let close := {| at_fs := Sim.no_file; at_iter := map_to_list; method := MClose |} in
  Variables Sim.fresh <> None
  /\ calls (invoke_all (E := Sim.engine) [close; close] Sim.fresh Sim.blank)
     = [CallFree; CallFree]
  /\ frees (calls (invoke_all (E := Sim.engine) [close; close] Sim.fresh Sim.blank))
     = 2%nat.
Proof.
  split; [discriminate|]. split; [reflexivity|].
  apply (X14_one_Free_per_Close Sim.engine
           [ {| at_fs := Sim.no_file; at_iter := map_to_list; method := MClose |};
             {| at_fs := Sim.no_file; at_iter := map_to_list; method := MClose |} ]
           Sim.fresh Sim.blank).
  discriminate.
Defined.

(** X15: two [SetVariable] calls with different names give the same Client
    in either order, and panic alike on a nil map. *)
Theorem X15_SetVariable_order :
  forall (c : Client) (k1 v1 k2 v2 : string),
    k1 <> k2 ->
    match SetVariable c k1 v1 with
    | Returns c1 => SetVariable c1 k2 v2
    | Panics msg => Panics msg
    end
    = match SetVariable c k2 v2 with
      | Returns c2 => SetVariable c2 k1 v1
      | Panics msg => Panics msg
      end.
Proof.
  intros c k1 v1 k2 v2 Hne. unfold SetVariable.
  destruct (Variables c) as [m|]; [|reflexivity].
  cbn [set_Variables Variables]. do 3 f_equal. apply insert_insert_ne. congruence.
Qed.

Lemma X15_SetVariable_order_witness :
  "a" <> "b"
  /\ match SetVariable Sim.fresh "a" "1" with
     | Returns c1 => SetVariable c1 "b" "2"
     | Panics msg => Panics msg
     end
     = match SetVariable Sim.fresh "b" "2" with
       | Returns c2 => SetVariable c2 "a" "1"
       | Panics msg => Panics msg
       end.
Proof.
  split; [discriminate|].
  apply (X15_SetVariable_order Sim.fresh "a" "1" "b" "2"). discriminate.
Defined.

(** X16: two setters that write different fields give the same Client in
    either order, each with the file system of its own call; when one of
    them panics, both orders panic. *)
Theorem X16_setters_of_different_fields_commute :
  forall (E : Engine) (s1 s2 : step) (c : Client) (api : TessBaseAPI),
    is_setter (method s1) = true -> is_setter (method s2) = true ->
    written (method s1) <> written (method s2) ->
    result (invoke_all [s1; s2] c api) = result (invoke_all [s2; s1] c api).
Proof.
  intros E [fs1 iter1 m1] [fs2 iter2 m2] [t tp l ip vars psm cfp] api. cbn [method].
  intros H1 H2 Hdiff.
  destruct m1; cbn [is_setter] in H1; try discriminate;
    destruct m2; cbn [is_setter] in H2; try discriminate;
    cbn [written] in Hdiff; try congruence;
    destruct vars as [m|];
    cbn [invoke_all invoke at_fs at_iter method];
    unfold bind, ret, result, chained, SetWhitelist, SetVariable, SetConfigFile,
      SetImage, SetLanguage, SetPageSegMode;
    cbn -[insert os.Stat];
    repeat match goal with
           | |- context [os.Stat fs1 ?p] =>
               destruct (os.Stat fs1 p) as [[[]]|]; cbn -[insert os.Stat]
           | |- context [os.Stat fs2 ?p] =>
               destruct (os.Stat fs2 p) as [[[]]|]; cbn -[insert os.Stat]
           end;
    reflexivity.
Qed.

Lemma X16_setters_of_different_fields_commute_witness :
  let s1 := {| at_fs := Sim.one_file "/etc/ocr.conf"; at_iter := map_to_list;
               method := MSetConfigFile "/etc/ocr.conf" |} in
  let s2 := {| at_fs := Sim.no_file; at_iter := map_to_list;
               method := MSetLanguage ["eng"; "fra"] |} in
  is_setter (method s1) = true /\ is_setter (method s2) = true
  /\ written (method s1) <> written (method s2)
  /\ result (invoke_all (E := Sim.engine) [s1; s2] Sim.fresh Sim.blank)
     = result (invoke_all (E := Sim.engine) [s2; s1] Sim.fresh Sim.blank).
Proof.
  split; [reflexivity|]. split; [reflexivity|]. split; [discriminate|].
  apply (X16_setters_of_different_fields_commute Sim.engine
           {| at_fs := Sim.one_file "/etc/ocr.conf"; at_iter := map_to_list;
              method := MSetConfigFile "/etc/ocr.conf" |}
           {| at_fs := Sim.no_file; at_iter := map_to_list;
              method := MSetLanguage ["eng"; "fra"] |}
           Sim.fresh Sim.blank); [reflexivity | reflexivity | discriminate].
Defined.
